(** * The Bedrock chat Lambda ([src/lambdas/chat.ts]) in Rocq

    A shallow embedding of the Lambda [handler] and of the few run-time
    built-ins it calls ([JSON.parse], [JSON.stringify], [TextDecoder.decode],
    property reads, [Array.prototype.join]), followed by the properties of
    the request-transform-invoke-response pipeline.

    Layout: the data model and the operations come first, the lemmas and
    theorems after them. *)

From Stdlib Require Import String Ascii List NArith ZArith Bool Lia.
From Stdlib Require Import Strings.Byte.
Import ListNotations.

Local Open Scope N_scope.

(** ** ECMAScript strings

    A JavaScript string is a sequence of UTF-16 code units.  Code units are
    kept as [N]; no operation below relies on them being less than 2^16. *)

Definition jsstring := list N.

(** [js "abc"] is the string whose code units are the character codes of
    the literal. *)
Definition js (s : string) : jsstring :=
  map N_of_ascii (list_ascii_of_string s).

(** [jq] is [js] for writing JSON texts: an apostrophe in the literal
    stands for the quotation mark U+0022. *)
Definition jq (s : string) : jsstring :=
  map (fun c => if c =? 39 then 34 else c) (js s).

Fixpoint jsstring_eqb (s t : jsstring) : bool :=
  match s, t with
  | [], [] => true
  | c :: s', d :: t' => (c =? d) && jsstring_eqb s' t'
  | _, _ => false
  end.

(** ** ECMAScript values

    The values the handler sees: what [JSON.parse] returns, [undefined]
    from a missing property, and what the provider call throws.  A number
    is kept as the decimal it was written as, sign * digits * 10^exp10; the
    rounding to binary64 is not modelled (the handler never computes with a
    number).  An object lists its properties in enumeration order; [Get]
    reads the same list. *)

Inductive number := Num (negative : bool) (digits : N) (exp10 : Z).

#[local] Set Warnings "-register-all".
Inductive value :=
| VUndefined
| VNull
| VBool (b : bool)
| VNumber (n : number)
| VString (s : jsstring)
| VArray (elements : list value)
| VObject (props : list (jsstring * value)).

(** A completion record: a value, or a thrown value. *)
Inductive completion (A : Type) :=
| Normal (a : A)
| Throw (e : value).
Arguments Normal {A} a.
Arguments Throw {A} e.

Definition cbind {A B} (c : completion A) (k : A -> completion B) : completion B :=
  match c with
  | Normal a => k a
  | Throw e => Throw e
  end.

(** An error object as the handler's [catch] sees it: [name] and [message]. *)
Definition error_object (name message : jsstring) : value :=
  VObject [(js "name", VString name); (js "message", VString message)].

Definition TypeError (message : jsstring) : value :=
  error_object (js "TypeError") message.

Definition SyntaxError (message : jsstring) : value :=
  error_object (js "SyntaxError") message.

(** Property lookup in a property list. *)
Fixpoint lookup (key : jsstring) (props : list (jsstring * value)) : value :=
  match props with
  | [] => VUndefined
  | (k, v) :: rest => if jsstring_eqb k key then v else lookup key rest
  end.

(** [v.key].  Reading a property of [undefined] or [null] throws a
    TypeError; a primitive or an array has none of the properties the
    handler reads ([prompt], [content], [type], [text], [name], [message]),
    and neither has [Object.prototype]. *)
Definition Get (v : value) (key : jsstring) : completion value :=
  match v with
  | VUndefined | VNull =>
      Throw (TypeError (js "Cannot read properties of undefined or null"))
  | VObject props => Normal (lookup key props)
  | _ => Normal VUndefined
  end.

(** [v?.key]: [undefined] when [v] is [undefined] or [null], and [v.key]
    otherwise, which then cannot throw. *)
Definition GetOptional (v : value) (key : jsstring) : value :=
  match v with
  | VObject props => lookup key props
  | _ => VUndefined
  end.

(** [typeof v === "string"]. *)
Definition typeof_is_string (v : value) : bool :=
  match v with
  | VString _ => true
  | _ => false
  end.

(** [v === s] for a string literal [s]. *)
Definition strict_equals_string (v : value) (s : jsstring) : bool :=
  match v with
  | VString t => jsstring_eqb t s
  | _ => false
  end.

(** [Array.isArray(v)]. *)
Definition isArray (v : value) : bool :=
  match v with
  | VArray _ => true
  | _ => false
  end.

(** Truthiness of a string: the empty string is falsy. *)
Definition string_truthy (s : jsstring) : bool :=
  match s with
  | [] => false
  | _ :: _ => true
  end.

(** ** Number to string

    [Number::toString] (ECMA-262, 6.1.6.1.20) in radix 10, on the decimal a
    number is kept as: with [k] significant digits and the decimal point
    after the [n]-th of them, the digits are written plainly when
    -6 < n <= 21 and in exponent form otherwise. *)

Fixpoint uint_digits (d : Decimal.uint) : jsstring :=
  match d with
  | Decimal.Nil => []
  | Decimal.D0 d' => 48 :: uint_digits d'
  | Decimal.D1 d' => 49 :: uint_digits d'
  | Decimal.D2 d' => 50 :: uint_digits d'
  | Decimal.D3 d' => 51 :: uint_digits d'
  | Decimal.D4 d' => 52 :: uint_digits d'
  | Decimal.D5 d' => 53 :: uint_digits d'
  | Decimal.D6 d' => 54 :: uint_digits d'
  | Decimal.D7 d' => 55 :: uint_digits d'
  | Decimal.D8 d' => 56 :: uint_digits d'
  | Decimal.D9 d' => 57 :: uint_digits d'
  end.

(** The decimal digits of [n], most significant first. *)
Definition N_digits (n : N) : jsstring := uint_digits (N.to_uint n).

(** Removes the zeros at the end of a digit string; returns how many. *)
Fixpoint strip_trailing_zeros (ds : jsstring) : jsstring * nat :=
  match ds with
  | [] => ([], O)
  | d :: rest =>
      match strip_trailing_zeros rest with
      | ([], z) => if d =? 48 then ([], S z) else ([d], z)
      | (kept, z) => (d :: kept, z)
      end
  end.

Definition Number_toString (x : number) : jsstring :=
  let '(Num negative m e) := x in
  if m =? 0 then js "0"
  else
    let '(ds, z) := strip_trailing_zeros (N_digits m) in
    let k := Z.of_nat (length ds) in
    let n := (k + (e + Z.of_nat z))%Z in
    let sign := if negative then js "-" else [] in
    sign ++
    (if ((k <=? n) && (n <=? 21))%Z then
       ds ++ repeat 48 (Z.to_nat (n - k))
     else if ((0 <? n) && (n <=? 21))%Z then
       firstn (Z.to_nat n) ds ++ js "." ++ skipn (Z.to_nat n) ds
     else if ((-6 <? n) && (n <=? 0))%Z then
       js "0." ++ repeat 48 (Z.to_nat (- n)) ++ ds
     else
       let exponent :=
         (if (0 <=? n - 1)%Z then js "+" else js "-")
           ++ N_digits (Z.abs_N (n - 1)) in
       match ds with
       | [d] => [d] ++ js "e" ++ exponent
       | d :: more => [d] ++ js "." ++ more ++ js "e" ++ exponent
       | [] => []
       end).

(** ** ToString and Array.prototype.join *)

Fixpoint join_strings (sep : jsstring) (parts : list jsstring) : jsstring :=
  match parts with
  | [] => []
  | [p] => p
  | p :: rest => p ++ sep ++ join_strings sep rest
  end.

(** [ToString] (ECMA-262, 7.1.17); an array is joined with commas, an
    element that is [undefined] or [null] giving the empty string. *)
Fixpoint ToString (v : value) : jsstring :=
  match v with
  | VUndefined => js "undefined"
  | VNull => js "null"
  | VBool true => js "true"
  | VBool false => js "false"
  | VNumber n => Number_toString n
  | VString s => s
  | VArray xs =>
      join_strings (js ",")
        (map (fun x => match x with
                       | VUndefined | VNull => []
                       | _ => ToString x
                       end) xs)
  | VObject _ => js "[object Object]"
  end.

(** [xs.join(sep)] (ECMA-262, 23.1.3.18). *)
Definition Array_join (xs : list value) (sep : jsstring) : jsstring :=
  join_strings sep
    (map (fun x => match x with
                   | VUndefined | VNull => []
                   | _ => ToString x
                   end) xs).

(** ** JSON

    [JSON.stringify] and [JSON.parse] of ECMA-262 (25.5), without replacer,
    reviver or indentation, as the handler calls them. *)

Module JSON.

(** *** JSON.stringify *)

Definition hex_digit (d : N) : N :=
  if d <? 10 then 48 + d else 87 + d.

(** [UnicodeEscape]: a backslash, [u], and four lower-case hex digits. *)
Definition UnicodeEscape (c : N) : jsstring :=
  [92; 117;
   hex_digit ((c / 4096) mod 16); hex_digit ((c / 256) mod 16);
   hex_digit ((c / 16) mod 16); hex_digit (c mod 16)].

Definition is_leading_surrogate (c : N) : bool := (55296 <=? c) && (c <=? 56319).
Definition is_trailing_surrogate (c : N) : bool := (56320 <=? c) && (c <=? 57343).

(** One code unit that is not part of a surrogate pair. *)
Definition quote_unit (c : N) : jsstring :=
  if c =? 8 then [92; 98]
  else if c =? 9 then [92; 116]
  else if c =? 10 then [92; 110]
  else if c =? 12 then [92; 102]
  else if c =? 13 then [92; 114]
  else if c =? 34 then [92; 34]
  else if c =? 92 then [92; 92]
  else if (c <? 32) || is_leading_surrogate c || is_trailing_surrogate c
       then UnicodeEscape c
  else [c].

(** The characters of [QuoteJSONString] between the quotation marks.  The
    string is read by code points: a leading surrogate followed by a
    trailing one is a pair and is copied; a lone surrogate is escaped. *)
Fixpoint quote_chars (s : jsstring) : jsstring :=
  match s with
  | [] => []
  | c :: rest =>
      if is_leading_surrogate c then
        match rest with
        | d :: rest' =>
            if is_trailing_surrogate d then c :: d :: quote_chars rest'
            else quote_unit c ++ quote_chars rest
        | [] => quote_unit c
        end
      else quote_unit c ++ quote_chars rest
  end.

Definition QuoteJSONString (s : jsstring) : jsstring :=
  [34] ++ quote_chars s ++ [34].

(** [SerializeJSONProperty]: [None] is [undefined].  In an array an
    [undefined] element is written [null]; in an object a property whose
    value is [undefined] is left out. *)
Fixpoint SerializeJSONProperty (v : value) : option jsstring :=
  match v with
  | VUndefined => None
  | VNull => Some (js "null")
  | VBool true => Some (js "true")
  | VBool false => Some (js "false")
  | VNumber n => Some (Number_toString n)
  | VString s => Some (QuoteJSONString s)
  | VArray xs =>
      Some (js "[" ++
            join_strings (js ",")
              (map (fun x => match SerializeJSONProperty x with
                             | Some t => t
                             | None => js "null"
                             end) xs) ++
            js "]")
  | VObject props =>
      Some (js "{" ++
            join_strings (js ",")
              (flat_map (fun kv => match SerializeJSONProperty (snd kv) with
                                   | Some t => [QuoteJSONString (fst kv) ++ js ":" ++ t]
                                   | None => []
                                   end) props) ++
            js "}")
  end.

Definition stringify (v : value) : option jsstring := SerializeJSONProperty v.

(** [JSON.stringify({...})] of an object literal, which is always a string. *)
Definition stringify_object (props : list (jsstring * value)) : jsstring :=
  match stringify (VObject props) with
  | Some s => s
  | None => []
  end.

(** *** JSON.parse

    The JSON grammar of ECMA-404: white space is TAB, LF, CR and SPACE; a
    string may not hold an unescaped control character; a number has no
    leading zeros.  The recursive descent is bounded by the length of the
    text, which is never what makes it fail ([parse_bound_suffices]); an
    engine's own stack limit is not modelled.  A failure throws a
    SyntaxError (its message is engine-defined). *)

Definition is_whitespace (c : N) : bool :=
  (c =? 9) || (c =? 10) || (c =? 13) || (c =? 32).

Fixpoint skip_whitespace (s : jsstring) : jsstring :=
  match s with
  | c :: rest => if is_whitespace c then skip_whitespace rest else s
  | [] => []
  end.

Definition hex_value (c : N) : option N :=
  if (48 <=? c) && (c <=? 57) then Some (c - 48)
  else if (65 <=? c) && (c <=? 70) then Some (c - 55)
  else if (97 <=? c) && (c <=? 102) then Some (c - 87)
  else None.

Definition hex4 (a b c d : N) : option N :=
  match hex_value a, hex_value b, hex_value c, hex_value d with
  | Some x, Some y, Some z, Some w => Some (((x * 16 + y) * 16 + z) * 16 + w)
  | _, _, _, _ => None
  end.

(** The character after a backslash, other than [u]. *)
Definition simple_escape (e : N) : option N :=
  if e =? 34 then Some 34
  else if e =? 92 then Some 92
  else if e =? 47 then Some 47
  else if e =? 98 then Some 8
  else if e =? 102 then Some 12
  else if e =? 110 then Some 10
  else if e =? 114 then Some 13
  else if e =? 116 then Some 9
  else None.

Definition cons_result {A B} (a : A) (r : option (list A * B)) : option (list A * B) :=
  match r with
  | Some (l, b) => Some (a :: l, b)
  | None => None
  end.

(** The characters of a string after its opening quotation mark, up to and
    including the closing one; returns the string value and what follows. *)
Fixpoint parse_string_chars (s : jsstring) : option (jsstring * jsstring) :=
  match s with
  | [] => None
  | c :: rest =>
      if c =? 34 then Some ([], rest)
      else if c =? 92 then
        match rest with
        | [] => None
        | e :: rest' =>
            if e =? 117 then
              match rest' with
              | h1 :: h2 :: h3 :: h4 :: rest'' =>
                  match hex4 h1 h2 h3 h4 with
                  | Some u => cons_result u (parse_string_chars rest'')
                  | None => None
                  end
              | _ => None
              end
            else
              match simple_escape e with
              | Some u => cons_result u (parse_string_chars rest')
              | None => None
              end
        end
      else if c <? 32 then None
      else cons_result c (parse_string_chars rest)
  end.

Definition is_digit (c : N) : bool := (48 <=? c) && (c <=? 57).

Fixpoint span_digits (s : jsstring) : jsstring * jsstring :=
  match s with
  | c :: rest =>
      if is_digit c then
        let (ds, rest') := span_digits rest in (c :: ds, rest')
      else ([], s)
  | [] => ([], [])
  end.

Definition digits_value (ds : jsstring) : N :=
  fold_left (fun acc d => acc * 10 + (d - 48)) ds 0.

(** An optional minus sign. *)
Definition minus_sign (s : jsstring) : bool * jsstring :=
  match s with
  | c :: rest => if c =? 45 then (true, rest) else (false, s)
  | [] => (false, s)
  end.

(** The optional sign of an exponent. *)
Definition exponent_sign (s : jsstring) : bool * jsstring :=
  match s with
  | c :: rest =>
      if c =? 45 then (true, rest)
      else if c =? 43 then (false, rest)
      else (false, s)
  | [] => (false, s)
  end.

(** The integer part of a number: a single 0, or digits that do not start
    with 0. *)
Definition parse_integer (s : jsstring) : option (jsstring * jsstring) :=
  match s with
  | d :: rest =>
      if is_digit d then
        Some (if d =? 48 then ([d], rest) else span_digits s)
      else None
  | [] => None
  end.

(** The fraction part of a number: its digits, none when there is no point. *)
Definition parse_fraction (s : jsstring) : option (jsstring * jsstring) :=
  match s with
  | c :: rest =>
      if c =? 46 then
        match span_digits rest with
        | ([], _) => None
        | (fs, rest') => Some (fs, rest')
        end
      else Some ([], s)
  | [] => Some ([], s)
  end.

(** The exponent part of a number, 0 when there is none. *)
Definition parse_exponent (s : jsstring) : option (Z * jsstring) :=
  match s with
  | c :: rest =>
      if (c =? 101) || (c =? 69) then
        let (negative, rest1) := exponent_sign rest in
        match span_digits rest1 with
        | ([], _) => None
        | (es, rest2) =>
            let x := Z.of_N (digits_value es) in
            Some (if negative then (- x)%Z else x, rest2)
        end
      else Some (0%Z, s)
  | [] => Some (0%Z, s)
  end.

Definition parse_number (s : jsstring) : option (number * jsstring) :=
  let (negative, s1) := minus_sign s in
  match parse_integer s1 with
  | None => None
  | Some (int_digits, s2) =>
      match parse_fraction s2 with
      | None => None
      | Some (fs, s3) =>
          match parse_exponent s3 with
          | None => None
          | Some (x, s4) =>
              Some (Num negative (digits_value (int_digits ++ fs))
                        (x - Z.of_nat (length fs)), s4)
          end
      end
  end.

(** [expect lit s]: [s] without its prefix [lit]. *)
Fixpoint expect (lit s : jsstring) : option jsstring :=
  match lit, s with
  | [], _ => Some s
  | c :: lit', d :: s' => if c =? d then expect lit' s' else None
  | _ :: _, [] => None
  end.

(** [CreateDataProperty]: a repeated key keeps its place and takes the
    later value.  The handler never enumerates a parsed object, so the
    engine's ordering of integer-like keys is left out. *)
Fixpoint set_property (props : list (jsstring * value)) (key : jsstring) (v : value)
  : list (jsstring * value) :=
  match props with
  | [] => [(key, v)]
  | (k, w) :: rest =>
      if jsstring_eqb k key then (k, v) :: rest
      else (k, w) :: set_property rest key v
  end.

Definition build_object (members : list (jsstring * value)) : value :=
  VObject (fold_left (fun props kv => set_property props (fst kv) (snd kv)) members []).

Fixpoint parse_value (fuel : nat) (s : jsstring) {struct fuel}
  : option (value * jsstring) :=
  match fuel with
  | O => None
  | S fuel' =>
      match s with
      | [] => None
      | c :: rest =>
          if c =? 34 then
            match parse_string_chars rest with
            | Some (str, rest') => Some (VString str, rest')
            | None => None
            end
          else if c =? 123 then
            match skip_whitespace rest with
            | [] => None
            | d :: rest' =>
                if d =? 125 then Some (VObject [], rest')
                else
                  match parse_members fuel' (d :: rest') with
                  | Some (members, rest'') => Some (build_object members, rest'')
                  | None => None
                  end
            end
          else if c =? 91 then
            match skip_whitespace rest with
            | [] => None
            | d :: rest' =>
                if d =? 93 then Some (VArray [], rest')
                else
                  match parse_elements fuel' (d :: rest') with
                  | Some (elements, rest'') => Some (VArray elements, rest'')
                  | None => None
                  end
            end
          else if c =? 116 then
            match expect (js "rue") rest with
            | Some rest' => Some (VBool true, rest')
            | None => None
            end
          else if c =? 102 then
            match expect (js "alse") rest with
            | Some rest' => Some (VBool false, rest')
            | None => None
            end
          else if c =? 110 then
            match expect (js "ull") rest with
            | Some rest' => Some (VNull, rest')
            | None => None
            end
          else
            match parse_number s with
            | Some (n, rest') => Some (VNumber n, rest')
            | None => None
            end
      end
  end

with parse_elements (fuel : nat) (s : jsstring) {struct fuel}
  : option (list value * jsstring) :=
  match fuel with
  | O => None
  | S fuel' =>
      match parse_value fuel' s with
      | None => None
      | Some (v, rest) =>
          match skip_whitespace rest with
          | [] => None
          | d :: rest' =>
              if d =? 44 then
                cons_result v (parse_elements fuel' (skip_whitespace rest'))
              else if d =? 93 then Some ([v], rest')
              else None
          end
      end
  end

with parse_members (fuel : nat) (s : jsstring) {struct fuel}
  : option (list (jsstring * value) * jsstring) :=
  match fuel with
  | O => None
  | S fuel' =>
      match s with
      | [] => None
      | q :: rest =>
          if q =? 34 then
            match parse_string_chars rest with
            | None => None
            | Some (key, rest1) =>
                match skip_whitespace rest1 with
                | [] => None
                | colon :: rest2 =>
                    if colon =? 58 then
                      match parse_value fuel' (skip_whitespace rest2) with
                      | None => None
                      | Some (v, rest3) =>
                          match skip_whitespace rest3 with
                          | [] => None
                          | d :: rest4 =>
                              if d =? 44 then
                                cons_result (key, v)
                                  (parse_members fuel' (skip_whitespace rest4))
                              else if d =? 125 then Some ([(key, v)], rest4)
                              else None
                          end
                      end
                    else None
                end
            end
          else None
      end
  end.

Definition parse (text : jsstring) : completion value :=
  match parse_value (S (length text)) (skip_whitespace text) with
  | Some (v, rest) =>
      match skip_whitespace rest with
      | [] => Normal v
      | _ :: _ => Throw (SyntaxError (js "Unexpected token in JSON"))
      end
  | None => Throw (SyntaxError (js "Unexpected token in JSON"))
  end.

End JSON.

(** ** TextDecoder

    [new TextDecoder().decode(bytes)]: the UTF-8 decoder of the WHATWG
    Encoding standard in its default mode.  A malformed sequence gives
    U+FFFD and decoding goes on (it never throws); a byte order mark at the
    start is dropped; the code points are returned as UTF-16. *)

Module TextDecoder.

Inductive lead :=
| LeadAscii
| LeadMulti (code_point : N) (needed : nat) (lower upper : N)
| LeadInvalid.

(** What a byte means when no sequence is open. *)
Definition classify (b : N) : lead :=
  if b <=? 127 then LeadAscii
  else if (194 <=? b) && (b <=? 223) then LeadMulti (N.land b 31) 1 128 191
  else if (224 <=? b) && (b <=? 239) then
    LeadMulti (N.land b 15) 2 (if b =? 224 then 160 else 128)
              (if b =? 237 then 159 else 191)
  else if (240 <=? b) && (b <=? 244) then
    LeadMulti (N.land b 7) 3 (if b =? 240 then 144 else 128)
              (if b =? 244 then 143 else 191)
  else LeadInvalid.

(** The decoder's loop; [needed] continuation bytes are still awaited, each
    within [lower..upper].  A byte that breaks a sequence gives U+FFFD and
    is then read again as the start of a new one. *)
Fixpoint utf8_decode (bytes : list N) (code_point : N) (needed : nat)
                     (lower upper : N) : list N :=
  match bytes with
  | [] =>
      match needed with
      | O => []
      | S _ => [65533]
      end
  | b :: rest =>
      let fresh :=
        match classify b with
        | LeadAscii => b :: utf8_decode rest 0 0 128 191
        | LeadMulti cp n lo hi => utf8_decode rest cp n lo hi
        | LeadInvalid => 65533 :: utf8_decode rest 0 0 128 191
        end in
      match needed with
      | O => fresh
      | S n =>
          if (lower <=? b) && (b <=? upper) then
            let cp := N.lor (N.shiftl code_point 6) (N.land b 63) in
            match n with
            | O => cp :: utf8_decode rest 0 0 128 191
            | S _ => utf8_decode rest cp n 128 191
            end
          else 65533 :: fresh
      end
  end.

(** A code point as one code unit or as a surrogate pair. *)
Definition utf16_encode (cp : N) : jsstring :=
  if cp <? 65536 then [cp]
  else [55296 + (cp - 65536) / 1024; 56320 + (cp - 65536) mod 1024].

Definition strip_bom (code_points : list N) : list N :=
  match code_points with
  | c :: rest => if c =? 65279 then rest else code_points
  | [] => []
  end.

Definition decode (bytes : list byte) : jsstring :=
  flat_map utf16_encode
    (strip_bom (utf8_decode (map Byte.to_N bytes) 0 0 128 191)).

End TextDecoder.

(** The UTF-8 bytes of an ASCII literal, with [jq]'s convention for the
    quotation mark. *)
Definition bytes_of (s : string) : list byte :=
  map (fun b => if Byte.to_N b =? 39 then x22 else b) (list_byte_of_string s).

(** ** The Lambda's data *)

(** [string | null | undefined], the type of [event.body]. *)
Inductive optional_string :=
| Absent
| Null
| Str (s : jsstring).

Module ApiGatewayEvent.
Record t := { body : optional_string }.
End ApiGatewayEvent.

(** [process.env]: a variable is a string or is not set. *)
Module ProcessEnv.
Record t := { BEDROCK_REGION : option jsstring; MODEL_ID : option jsstring }.
End ProcessEnv.

Module BedrockRuntimeClient.
Record t := { region : jsstring }.
End BedrockRuntimeClient.

Module InvokeModelCommand.
Record t := {
  modelId : jsstring;
  contentType : jsstring;
  accept : jsstring;
  body : jsstring
}.
End InvokeModelCommand.

(** The provider's answer; [body] is a byte array. *)
Module InvokeModelCommandOutput.
Record t := { body : list byte }.
End InvokeModelCommandOutput.

(** What the handler returns to API Gateway. *)
Module HttpResponse.
Record t := {
  statusCode : N;
  headers : list (jsstring * jsstring);
  body : jsstring
}.
End HttpResponse.

(** [process.env.NAME || fallback]: the fallback is taken when the variable
    is not set or is the empty string. *)
Definition env_or (variable : option jsstring) (fallback : jsstring) : jsstring :=
  match variable with
  | Some s => if string_truthy s then s else fallback
  | None => fallback
  end.

(** ** Effects

    Outside the handler there is the inference provider, whose answers the
    handler does not control.  It is a state machine of an arbitrary state
    type: given the client, the command and its state it answers (or
    throws) and moves on.  The world also records every request sent and
    every [console.error] line. *)

Record World (Remote : Type) := {
  remote : Remote;
  sent : list (BedrockRuntimeClient.t * InvokeModelCommand.t);
  console : list (list value)
}.
Arguments remote {Remote} w.
Arguments sent {Remote} w.
Arguments console {Remote} w.

Definition M (Remote A : Type) : Type :=
  World Remote -> completion A * World Remote.

Definition ret {Remote A} (a : A) : M Remote A :=
  fun w => (Normal a, w).

Definition bind {Remote A B} (m : M Remote A) (k : A -> M Remote B) : M Remote B :=
  fun w =>
    match m w with
    | (Normal a, w') => k a w'
    | (Throw e, w') => (Throw e, w')
    end.

Definition lift {Remote A} (c : completion A) : M Remote A :=
  fun w => (c, w).

(** [try { block } catch (err) { handle }]. *)
Definition try_catch {Remote A} (block : M Remote A) (handle : value -> M Remote A)
  : M Remote A :=
  fun w =>
    match block w with
    | (Normal a, w') => (Normal a, w')
    | (Throw err, w') => handle err w'
    end.

Definition console_error {Remote} (args : list value) : M Remote unit :=
  fun w =>
    (Normal tt,
     {| remote := remote w; sent := sent w; console := console w ++ [args] |}).

Declare Scope completion_scope.
Delimit Scope completion_scope with completion.
Notation "x <- c ;; k" := (cbind c (fun x => k))
  (at level 61, c at next level, right associativity) : completion_scope.

Declare Scope action_scope.
Delimit Scope action_scope with action.
Notation "x <- c ;; k" := (bind c (fun x => k))
  (at level 61, c at next level, right associativity) : action_scope.
Notation "c ;;; k" := (bind c (fun _ => k))
  (at level 61, right associativity) : action_scope.

Fixpoint map_completion {A B} (f : A -> completion B) (xs : list A)
  : completion (list B) :=
  match xs with
  | [] => Normal []
  | x :: rest =>
      (y <- f x ;;
       ys <- map_completion f rest ;;
       Normal (y :: ys))%completion
  end.

(** ** The handler, stage by stage *)

(** chat.ts, lines 32-47: the prompt.  The default stays unless the body is
    a non-empty string that parses to something whose [prompt] is a string;
    whatever the [try] block throws is dropped. *)
Definition normalize_prompt (event : ApiGatewayEvent.t) : jsstring :=
  let prompt := js "Hello from Bedrock!" in
  let attempt :=
    match ApiGatewayEvent.body event with
    | Str text =>
        if string_truthy text then
          (parsed <- JSON.parse text ;;
           p <- Get parsed (js "prompt") ;;
           match p with
           | VString s => Normal s
           | _ => Normal prompt
           end)%completion
        else Normal prompt
    | Absent | Null => Normal prompt
    end in
  match attempt with
  | Normal p => p
  | Throw _ => prompt
  end.

(** chat.ts, lines 63-78: the object literal given to [JSON.stringify],
    and the request body made of it. *)
Definition request_properties (prompt : jsstring) : list (jsstring * value) :=
  [(js "anthropic_version", VString (js "bedrock-2023-05-31"));
   (js "max_tokens", VNumber (Num false 200 0));
   (js "temperature", VNumber (Num false 7 (-1)));
   (js "messages",
    VArray
      [VObject
         [(js "role", VString (js "user"));
          (js "content",
           VArray
             [VObject [(js "type", VString (js "text"));
                       (js "text", VString prompt)]])]])].

Definition request_body (prompt : jsstring) : jsstring :=
  JSON.stringify_object (request_properties prompt).

(** chat.ts, lines 107-108: the filter's predicate. *)
Definition is_text_block (block : value) : bool :=
  strict_equals_string (GetOptional block (js "type")) (js "text")
  && typeof_is_string (GetOptional block (js "text")).

(** chat.ts, lines 104-112: the text of the decoded answer. *)
Definition extract_text (raw : value) : completion jsstring :=
  if isArray (GetOptional raw (js "content")) then
    (content <- Get raw (js "content") ;;
     match content with
     | VArray blocks =>
         texts <- map_completion (fun block => Get block (js "text"))
                                 (filter is_text_block blocks) ;;
         Normal (Array_join texts (js ""))
     | _ => Throw (TypeError (js "raw.content.filter is not a function"))
     end)%completion
  else Normal (js "").

(** chat.ts, lines 98-112: from the provider's bytes to the text.  Nothing
    here catches what [JSON.parse] throws. *)
Definition response_text (resp : InvokeModelCommandOutput.t) : completion jsstring :=
  (raw <- JSON.parse (TextDecoder.decode (InvokeModelCommandOutput.body resp)) ;;
   extract_text raw)%completion.

Definition json_headers : list (jsstring * jsstring) :=
  [(js "content-type", js "application/json")].

(** chat.ts, lines 117-126. *)
Definition success_response (region modelId prompt text : jsstring) : HttpResponse.t :=
  {| HttpResponse.statusCode := 200;
     HttpResponse.headers := json_headers;
     HttpResponse.body :=
       JSON.stringify_object
         [(js "region", VString region);
          (js "modelId", VString modelId);
          (js "prompt", VString prompt);
          (js "text", VString text)] |}.

(** chat.ts, lines 134-142; [err?.name] and [err?.message]. *)
Definition failure_response (err : value) : HttpResponse.t :=
  {| HttpResponse.statusCode := 500;
     HttpResponse.headers := json_headers;
     HttpResponse.body :=
       JSON.stringify_object
         [(js "message", VString (js "Bedrock invoke failed"));
          (js "errorName", GetOptional err (js "name"));
          (js "errorMessage", GetOptional err (js "message"))] |}.

Section Lambda.

Context {Remote : Type}.

(** [client.send(command)], awaited. *)
Variable provider :
  Remote -> BedrockRuntimeClient.t -> InvokeModelCommand.t ->
  completion InvokeModelCommandOutput.t * Remote.

Definition send (client : BedrockRuntimeClient.t) (command : InvokeModelCommand.t)
  : M Remote InvokeModelCommandOutput.t :=
  fun w =>
    let (answer, remote') := provider (remote w) client command in
    (answer,
     {| remote := remote';
        sent := sent w ++ [(client, command)];
        console := console w |}).

(** chat.ts, lines 20-144. *)
Definition handler (env : ProcessEnv.t) (event : ApiGatewayEvent.t)
  : M Remote HttpResponse.t :=
  let region := env_or (ProcessEnv.BEDROCK_REGION env) (js "us-east-1") in
  let modelId :=
    env_or (ProcessEnv.MODEL_ID env)
           (js "anthropic.claude-3-sonnet-20240229-v1:0") in
  let prompt := normalize_prompt event in
  let client := {| BedrockRuntimeClient.region := region |} in
  let body := request_body prompt in
  try_catch
    (resp <- send client
               {| InvokeModelCommand.modelId := modelId;
                  InvokeModelCommand.contentType := js "application/json";
                  InvokeModelCommand.accept := js "application/json";
                  InvokeModelCommand.body := body |} ;;
     text <- lift (response_text resp) ;;
     ret (success_response region modelId prompt text))%action
    (fun err =>
       (console_error [VString (js "Bedrock invoke failed:"); err] ;;;
        ret (failure_response err))%action).

End Lambda.

(** ** Vocabulary of the properties *)

(** The configuration an invocation runs with (chat.ts, lines 25-27). *)
Definition region_of (env : ProcessEnv.t) : jsstring :=
  env_or (ProcessEnv.BEDROCK_REGION env) (js "us-east-1").

Definition modelId_of (env : ProcessEnv.t) : jsstring :=
  env_or (ProcessEnv.MODEL_ID env) (js "anthropic.claude-3-sonnet-20240229-v1:0").

(** The request an invocation puts on the wire. *)
Definition request_of (env : ProcessEnv.t) (event : ApiGatewayEvent.t)
  : BedrockRuntimeClient.t * InvokeModelCommand.t :=
  ({| BedrockRuntimeClient.region := region_of env |},
   {| InvokeModelCommand.modelId := modelId_of env;
      InvokeModelCommand.contentType := js "application/json";
      InvokeModelCommand.accept := js "application/json";
      InvokeModelCommand.body := request_body (normalize_prompt event) |}).

(** What the provider does with that request in world [w]. *)
Definition answer_of {Remote}
  (provider : Remote -> BedrockRuntimeClient.t -> InvokeModelCommand.t ->
              completion InvokeModelCommandOutput.t * Remote)
  (env : ProcessEnv.t) (event : ApiGatewayEvent.t) (w : World Remote)
  : completion InvokeModelCommandOutput.t :=
  fst (provider (remote w) (fst (request_of env event)) (snd (request_of env event))).

(** The world after the request has gone out. *)
Definition after_send {Remote}
  (provider : Remote -> BedrockRuntimeClient.t -> InvokeModelCommand.t ->
              completion InvokeModelCommandOutput.t * Remote)
  (env : ProcessEnv.t) (event : ApiGatewayEvent.t) (w : World Remote)
  : World Remote :=
  {| remote :=
       snd (provider (remote w) (fst (request_of env event))
                     (snd (request_of env event)));
     sent := sent w ++ [request_of env event];
     console := console w |}.

(** The world after a failed run: the error has been logged as well. *)
Definition after_failure {Remote}
  (provider : Remote -> BedrockRuntimeClient.t -> InvokeModelCommand.t ->
              completion InvokeModelCommandOutput.t * Remote)
  (env : ProcessEnv.t) (event : ApiGatewayEvent.t) (w : World Remote)
  (err : value) : World Remote :=
  {| remote := remote (after_send provider env event w);
     sent := sent (after_send provider env event w);
     console := console w ++ [[VString (js "Bedrock invoke failed:"); err]] |}.

(** The error, if any, with which the guarded block of the handler ends:
    thrown by the provider call, or while the answer is decoded. *)
Definition raises {Remote}
  (provider : Remote -> BedrockRuntimeClient.t -> InvokeModelCommand.t ->
              completion InvokeModelCommandOutput.t * Remote)
  (env : ProcessEnv.t) (event : ApiGatewayEvent.t) (w : World Remote)
  (err : value) : Prop :=
  match answer_of provider env event w with
  | Throw e => e = err
  | Normal resp => response_text resp = Throw err
  end.

(** The extractor in the words of the specification (4.4): keep the blocks
    whose [type] is ["text"] and whose [text] is a string, and concatenate
    their texts in order, with no separator. *)
Definition spec_block_text (block : value) : option jsstring :=
  match block with
  | VObject props =>
      match lookup (js "type") props, lookup (js "text") props with
      | VString ty, VString tx => if jsstring_eqb ty (js "text") then Some tx else None
      | _, _ => None
      end
  | _ => None
  end.

Fixpoint spec_concat_text (content : list value) : jsstring :=
  match content with
  | [] => []
  | block :: rest =>
      match spec_block_text block with
      | Some tx => tx ++ spec_concat_text rest
      | None => spec_concat_text rest
      end
  end.

(** [g] gives every result [f] gives; used to compare a parser at two
    recursion bounds. *)
Definition stable {A} (f g : jsstring -> option A) : Prop :=
  forall s r, f s = Some r -> g s = Some r.

(** The text [JSON.stringify] makes of a value ([undefined] has none). *)
Definition serialized (v : value) : jsstring :=
  match JSON.SerializeJSONProperty v with
  | Some t => t
  | None => []
  end.

(** What may follow a value inside a JSON text: nothing, a comma, or a
    closing bracket or brace. *)
Definition delimited (rest : jsstring) : Prop :=
  match rest with
  | [] => True
  | c :: _ => c = 44 \/ c = 93 \/ c = 125
  end.

(** A number whose text starts with a digit or a minus sign and is read
    back as the same number. *)
Definition number_ok (n : number) : Prop :=
  (exists c tl, Number_toString n = c :: tl
                /\ (JSON.is_digit c || (c =? 45)) = true)
  /\ forall rest, delimited rest ->
       JSON.parse_number (Number_toString n ++ rest) = Some (n, rest).

Fixpoint distinct (keys : list jsstring) : Prop :=
  match keys with
  | [] => True
  | k :: rest => (forall k', In k' rest -> jsstring_eqb k k' = false) /\ distinct rest
  end.

Fixpoint distinctb (keys : list jsstring) : bool :=
  match keys with
  | [] => true
  | k :: rest => forallb (fun k' => negb (jsstring_eqb k k')) rest && distinctb rest
  end.

(** The values [JSON.stringify] writes in full: no [undefined] anywhere,
    no repeated key in an object, numbers that are read back. *)
Fixpoint plain (v : value) : Prop :=
  match v with
  | VUndefined => False
  | VNull | VBool _ | VString _ => True
  | VNumber n => number_ok n
  | VArray xs => (fix all (l : list value) : Prop :=
                    match l with
                    | [] => True
                    | x :: l' => plain x /\ all l'
                    end) xs
  | VObject props =>
      distinct (map fst props)
      /\ (fix all (l : list (jsstring * value)) : Prop :=
            match l with
            | [] => True
            | kv :: l' => plain (snd kv) /\ all l'
            end) props
  end.

(** The first character of a value's text. *)
Definition starts_value (c : N) : Prop :=
  JSON.is_whitespace c = false /\ c <> 93 /\ c <> 125
  /\ (c = 34 \/ c = 123 \/ c = 91 \/ c = 116 \/ c = 102 \/ c = 110
      \/ (JSON.is_digit c || (c =? 45)) = true).

(** [JSON.parse] reads the text of [v] back as [v], whatever delimiter
    follows, within a recursion bound of the length of the text. *)
Definition reads_back (v : value) : Prop :=
  forall rest, delimited rest ->
    JSON.parse_value (length (serialized v)) (serialized v ++ rest) = Some (v, rest).

(** A property as [JSON.stringify] writes it. *)
Definition member_text (kv : jsstring * value) : jsstring :=
  JSON.QuoteJSONString (fst kv) ++ js ":" ++ serialized (snd kv).

(** The constant text around the prompt in the request body. *)
Definition request_prefix : jsstring :=
  jq "{'anthropic_version':'bedrock-2023-05-31','max_tokens':200,'temperature':0.7,'messages':[{'role':'user','content':[{'type':'text','text':".

Definition request_suffix : jsstring := js "}]}]}".

(** The bodies from which no prompt can be taken: absent, [null], empty,
    not JSON, or JSON whose [prompt] is missing or is not a string. *)
Definition malformed (event : ApiGatewayEvent.t) : Prop :=
  ApiGatewayEvent.body event = Absent
  \/ ApiGatewayEvent.body event = Null
  \/ ApiGatewayEvent.body event = Str []
  \/ (exists text err,
        ApiGatewayEvent.body event = Str text /\ JSON.parse text = Throw err)
  \/ (exists text parsed,
        ApiGatewayEvent.body event = Str text
        /\ JSON.parse text = Normal parsed
        /\ forall s, GetOptional parsed (js "prompt") <> VString s).

(** [payload.messages[0].content[0].text], [undefined] where a step is
    missing. *)
Definition first_element (v : value) : value :=
  match v with
  | VArray (x :: _) => x
  | _ => VUndefined
  end.

Definition payload_text (payload : value) : value :=
  GetOptional
    (first_element
       (GetOptional (first_element (GetOptional payload (js "messages")))
                    (js "content")))
    (js "text").

(** The properties [JSON.stringify] writes: those whose value is not
    [undefined]. *)
Definition defined_properties (props : list (jsstring * value))
  : list (jsstring * value) :=
  filter (fun kv => match snd kv with VUndefined => false | _ => true end) props.

Definition string_or_undefined (v : value) : Prop :=
  v = VUndefined \/ exists s, v = VString s.

(** A throttling error as the SDK raises it. *)
Definition throttling : value :=
  error_object (js "ThrottlingException") (js "Rate exceeded").

(** A text block, an image block and a text block. *)
Definition mixed_blocks : list value :=
  [VObject [(js "type", VString (js "text")); (js "text", VString (js "A"))];
   VObject [(js "type", VString (js "image")); (js "url", VString (js "x"))];
   VObject [(js "type", VString (js "text")); (js "text", VString (js "B"))]].

(** A result found at bound [n] is found at a bound no larger than the
    number of characters it consumed. *)
Definition tight {A} (f : nat -> jsstring -> option (A * jsstring)) (n : nat) : Prop :=
  forall s a rest,
    f n s = Some (a, rest) ->
    exists m, (m + length rest <= length s)%nat /\ f m s = Some (a, rest).

(** A provider that gives the same answer to every request. *)
Definition constant_provider (answer : completion InvokeModelCommandOutput.t)
  : unit -> BedrockRuntimeClient.t -> InvokeModelCommand.t ->
    completion InvokeModelCommandOutput.t * unit :=
  fun u _ _ => (answer, u).

Definition empty_world : World unit :=
  {| remote := tt; sent := []; console := [] |}.

Definition no_env : ProcessEnv.t :=
  {| ProcessEnv.BEDROCK_REGION := None; ProcessEnv.MODEL_ID := None |}.

Definition event_with (body : string) : ApiGatewayEvent.t :=
  {| ApiGatewayEvent.body := Str (jq body) |}.

Definition answer_with (payload : string) : completion InvokeModelCommandOutput.t :=
  Normal {| InvokeModelCommandOutput.body := bytes_of payload |}.

(** The outcome of the guarded block of the handler: the extracted text,
    or what was thrown on the way to it. *)
Definition outcome_of {Remote}
  (provider : Remote -> BedrockRuntimeClient.t -> InvokeModelCommand.t ->
              completion InvokeModelCommandOutput.t * Remote)
  (env : ProcessEnv.t) (event : ApiGatewayEvent.t) (w : World Remote)
  : completion jsstring :=
  cbind (answer_of provider env event w) response_text.

(** A decoded answer with nothing but [content], and a block of type
    "text" whose [text] is [null]. *)
Definition content_only (blocks : list value) : value :=
  VObject [(js "content", VArray blocks)].

Definition null_text_block : value :=
  VObject [(js "type", VString (js "text")); (js "text", VNull)].

(** An event whose body is the string [text]. *)
Definition event_of (text : jsstring) : ApiGatewayEvent.t :=
  {| ApiGatewayEvent.body := Str text |}.

(** lib/cdk-bedrock-http-api-stack.ts, lines 20-23: the environment the
    stack gives the Lambda, [region] being the stack's region. *)
Definition chat_lambda_environment (region : jsstring) : ProcessEnv.t :=
  {| ProcessEnv.BEDROCK_REGION := Some region;
     ProcessEnv.MODEL_ID := Some (js "anthropic.claude-3-sonnet-20240229-v1:0") |}.

(** * Properties *)

(** ** Strings and property reads *)

Lemma jsstring_eqb_eq (s t : jsstring) : jsstring_eqb s t = true <-> s = t.
Proof.
  revert t; induction s as [|c s IH]; intros [|d t]; simpl; split;
    try congruence; try reflexivity.
  - intros H. apply andb_true_iff in H as [Hc Hs].
    apply N.eqb_eq in Hc. apply IH in Hs. congruence.
  - intros H. inversion H; subst. rewrite N.eqb_refl. simpl. now apply IH.
Qed.

Lemma jsstring_eqb_refl (s : jsstring) : jsstring_eqb s s = true.
Proof. now apply jsstring_eqb_eq. Qed.

(** Where [v?.key] is not [undefined], [v.key] reads the same value. *)
Lemma Get_of_GetOptional (v : value) (key : jsstring) (x : value) :
  GetOptional v key = x -> x <> VUndefined -> Get v key = Normal x.
Proof.
  destruct v; simpl; intros <- Hx; try reflexivity; now destruct Hx.
Qed.

Lemma GetOptional_of_Get (v : value) (key : jsstring) (x : value) :
  Get v key = Normal x -> GetOptional v key = x.
Proof.
  destruct v; simpl; intros H; inversion H; reflexivity.
Qed.

Lemma default_prompt_not_empty : js "Hello from Bedrock!" <> [].
Proof. discriminate. Qed.

(** ** The normalizer *)

(** The prompt is the default unless the [try] block yields another one. *)
Lemma normalize_prompt_cases (event : ApiGatewayEvent.t) :
  normalize_prompt event = js "Hello from Bedrock!"
  \/ exists text parsed,
       ApiGatewayEvent.body event = Str text
       /\ text <> []
       /\ JSON.parse text = Normal parsed
       /\ Get parsed (js "prompt") = Normal (VString (normalize_prompt event)).
Proof.
  unfold normalize_prompt.
  destruct (ApiGatewayEvent.body event) as [| |text]; auto.
  destruct text as [|c text]; simpl; auto.
  destruct (JSON.parse (c :: text)) as [parsed|e] eqn:Hparse; simpl; auto.
  destruct (Get parsed (js "prompt")) as [p|e] eqn:Hget; simpl; auto.
  destruct p; auto.
  right. exists (c :: text), parsed. repeat split; auto. discriminate.
Qed.

Lemma parse_empty : exists e, JSON.parse [] = Throw e.
Proof. eexists. reflexivity. Qed.

Lemma normalize_prompt_string (event : ApiGatewayEvent.t) (text : jsstring)
      (parsed : value) (s : jsstring) :
  ApiGatewayEvent.body event = Str text ->
  JSON.parse text = Normal parsed ->
  Get parsed (js "prompt") = Normal (VString s) ->
  normalize_prompt event = s.
Proof.
  intros Hbody Hparse Hget. unfold normalize_prompt. rewrite Hbody.
  destruct text as [|c text].
  - destruct parse_empty as [e He]. congruence.
  - simpl string_truthy. cbv iota. rewrite Hparse. simpl. rewrite Hget. reflexivity.
Qed.

(** ** One run of the handler *)

Section Run.

Context {Remote : Type}.
Variable provider :
  Remote -> BedrockRuntimeClient.t -> InvokeModelCommand.t ->
  completion InvokeModelCommandOutput.t * Remote.

Lemma handler_success env event w resp text :
  answer_of provider env event w = Normal resp ->
  response_text resp = Normal text ->
  handler provider env event w
  = (Normal (success_response (region_of env) (modelId_of env)
                              (normalize_prompt event) text),
     after_send provider env event w).
Proof.
  unfold answer_of, handler, try_catch, bind, send, lift, ret, after_send.
  simpl. intros Hans Htext.
  destruct (provider _ _ _) as [answer r'] eqn:Hp. simpl in *.
  subst answer. rewrite Htext. reflexivity.
Qed.

Lemma handler_failure env event w err :
  raises provider env event w err ->
  handler provider env event w
  = (Normal (failure_response err), after_failure provider env event w err).
Proof.
  unfold raises, answer_of, handler, try_catch, bind, send, lift, ret,
    console_error, after_failure, after_send.
  simpl. intros H.
  destruct (provider _ _ _) as [answer r'] eqn:Hp. simpl in *.
  destruct answer as [resp|e].
  - rewrite H. reflexivity.
  - subst e. reflexivity.
Qed.

(** Every run ends one way or the other. *)
Lemma success_or_failure env event w :
  (exists resp text,
      answer_of provider env event w = Normal resp
      /\ response_text resp = Normal text)
  \/ exists err, raises provider env event w err.
Proof.
  unfold raises.
  destruct (answer_of provider env event w) as [resp|e] eqn:Hans.
  - destruct (response_text resp) as [text|err] eqn:Htext.
    + left. eauto.
    + right. eauto.
  - right. eauto.
Qed.

(** Exactly one request goes out, and it is [request_of env event]. *)
Lemma handler_sent env event w :
  sent (snd (handler provider env event w)) = sent w ++ [request_of env event].
Proof.
  destruct (success_or_failure env event w) as [(resp & text & Ha & Ht)|[err He]].
  - rewrite (handler_success _ _ _ _ _ Ha Ht). reflexivity.
  - rewrite (handler_failure _ _ _ _ He). reflexivity.
Qed.

End Run.

(** ** The extractor *)

Lemma join_strings_no_separator (p : jsstring) (parts : list jsstring) :
  join_strings [] (p :: parts) = p ++ join_strings [] parts.
Proof.
  destruct parts; simpl.
  - now rewrite app_nil_r.
  - reflexivity.
Qed.

(** The filter's predicate holds exactly of the blocks the specification
    keeps, and on those [block.text] reads the text. *)
Lemma is_text_block_spec (block : value) :
  match spec_block_text block with
  | Some tx => is_text_block block = true /\ Get block (js "text") = Normal (VString tx)
  | None => is_text_block block = false
  end.
Proof.
  unfold is_text_block, spec_block_text.
  destruct block; simpl; try reflexivity.
  destruct (lookup (js "type") props) as [| | | |ty| |]; simpl; try reflexivity.
  destruct (jsstring_eqb ty (js "text")); simpl.
  - destruct (lookup (js "text") props); simpl; auto.
  - destruct (lookup (js "text") props); reflexivity.
Qed.

Lemma filter_map_join (blocks : list value) :
  exists texts,
    map_completion (fun block => Get block (js "text")) (filter is_text_block blocks)
    = Normal texts
    /\ Array_join texts (js "") = spec_concat_text blocks.
Proof.
  induction blocks as [|block blocks (texts & Hmap & Hjoin)].
  - exists []. split; reflexivity.
  - pose proof (is_text_block_spec block) as Hb. simpl.
    destruct (spec_block_text block) as [tx|].
    + destruct Hb as [Hkeep Hget]. rewrite Hkeep. simpl.
      rewrite Hget, Hmap. simpl. exists (VString tx :: texts). split; auto.
      unfold Array_join in *. simpl map.
      change (js "") with (@nil N) in *.
      rewrite join_strings_no_separator. now rewrite Hjoin.
    + rewrite Hb. eauto.
Qed.

Lemma extract_text_array (raw : value) (blocks : list value) :
  GetOptional raw (js "content") = VArray blocks ->
  extract_text raw = Normal (spec_concat_text blocks).
Proof.
  intros Hc. unfold extract_text. rewrite Hc. simpl isArray. cbv iota.
  rewrite (Get_of_GetOptional _ _ _ Hc) by discriminate. simpl.
  destruct (filter_map_join blocks) as (texts & Hmap & Hjoin).
  rewrite Hmap. simpl. now rewrite Hjoin.
Qed.

Lemma extract_text_not_array (raw : value) :
  isArray (GetOptional raw (js "content")) = false ->
  extract_text raw = Normal [].
Proof. intros H. unfold extract_text. now rewrite H. Qed.


(** ** JSON: a quoted string parses back to itself *)

Lemma hex_value_hex_digit (d : N) : d < 16 -> JSON.hex_value (JSON.hex_digit d) = Some d.
Proof.
  intros Hd. unfold JSON.hex_value, JSON.hex_digit.
  destruct (N.ltb_spec d 10).
  - replace ((48 <=? 48 + d) && (48 + d <=? 57)) with true.
    + f_equal. lia.
    + symmetry. apply andb_true_iff. split; apply N.leb_le; lia.
  - replace ((48 <=? 87 + d) && (87 + d <=? 57)) with false.
    2:{ symmetry. apply andb_false_iff. right. apply N.leb_gt. lia. }
    replace ((65 <=? 87 + d) && (87 + d <=? 70)) with false.
    2:{ symmetry. apply andb_false_iff. right. apply N.leb_gt. lia. }
    replace ((97 <=? 87 + d) && (87 + d <=? 102)) with true.
    + f_equal. lia.
    + symmetry. apply andb_true_iff. split; apply N.leb_le; lia.
Qed.

Lemma hex4_UnicodeEscape (c : N) :
  c < 65536 ->
  exists h1 h2 h3 h4,
    JSON.UnicodeEscape c = [92; 117; h1; h2; h3; h4]
    /\ JSON.hex4 h1 h2 h3 h4 = Some c.
Proof.
  intros Hc. unfold JSON.UnicodeEscape. do 4 eexists. split; [reflexivity|].
  unfold JSON.hex4.
  rewrite !hex_value_hex_digit by (apply N.mod_lt; discriminate).
  f_equal.
  pose proof (N.div_mod c 4096 ltac:(discriminate)).
  assert (c / 4096 < 16) by (apply N.Div0.div_lt_upper_bound; lia).
  rewrite (N.mod_small (c / 4096) 16) by assumption.
  pose proof (N.mod_lt c 16 ltac:(discriminate)).
  pose proof (N.div_mod c 16 ltac:(discriminate)).
  pose proof (N.div_mod (c / 16) 16 ltac:(discriminate)).
  pose proof (N.div_mod (c / 16 / 16) 16 ltac:(discriminate)).
  rewrite !N.Div0.div_div in *. simpl (16 * 16) in *. simpl (256 * 16) in *.
  pose proof (N.mod_lt (c / 16) 16 ltac:(discriminate)).
  pose proof (N.mod_lt (c / 256) 16 ltac:(discriminate)).
  lia.
Qed.

(** One escaped or copied code unit is read back as that code unit. *)
Lemma parse_quote_unit (c : N) (rest : jsstring) :
  JSON.parse_string_chars (JSON.quote_unit c ++ rest)
  = JSON.cons_result c (JSON.parse_string_chars rest).
Proof.
  unfold JSON.quote_unit.
  destruct (N.eqb_spec c 8) as [->|H8]; [reflexivity|].
  destruct (N.eqb_spec c 9) as [->|H9]; [reflexivity|].
  destruct (N.eqb_spec c 10) as [->|H10]; [reflexivity|].
  destruct (N.eqb_spec c 12) as [->|H12]; [reflexivity|].
  destruct (N.eqb_spec c 13) as [->|H13]; [reflexivity|].
  destruct (N.eqb_spec c 34) as [->|H34]; [reflexivity|].
  destruct (N.eqb_spec c 92) as [->|H92]; [reflexivity|].
  destruct ((c <? 32) || JSON.is_leading_surrogate c || JSON.is_trailing_surrogate c)
    eqn:Hesc.
  - assert (Hc : c < 65536).
    { unfold JSON.is_leading_surrogate, JSON.is_trailing_surrogate in Hesc.
      repeat (apply orb_true_iff in Hesc as [Hesc|Hesc]).
      - apply N.ltb_lt in Hesc. lia.
      - apply andb_true_iff in Hesc as [_ Hesc]. apply N.leb_le in Hesc. lia.
      - apply andb_true_iff in Hesc as [_ Hesc]. apply N.leb_le in Hesc. lia. }
    destruct (hex4_UnicodeEscape c Hc) as (h1 & h2 & h3 & h4 & -> & Hhex).
    simpl. now rewrite Hhex.
  - apply orb_false_iff in Hesc as [Hesc _].
    apply orb_false_iff in Hesc as [Hlow _].
    simpl.
    destruct (N.eqb_spec c 34); [contradiction|].
    destruct (N.eqb_spec c 92); [contradiction|].
    now rewrite Hlow.
Qed.

(** A surrogate is copied as it is when it is half of a pair. *)
Lemma parse_surrogate (c : N) (rest : jsstring) :
  JSON.is_leading_surrogate c || JSON.is_trailing_surrogate c = true ->
  JSON.parse_string_chars (c :: rest)
  = JSON.cons_result c (JSON.parse_string_chars rest).
Proof.
  intros H.
  assert (Hc : 55296 <= c).
  { unfold JSON.is_leading_surrogate, JSON.is_trailing_surrogate in H.
    apply orb_true_iff in H as [H|H];
      apply andb_true_iff in H as [H _]; apply N.leb_le in H; lia. }
  simpl.
  destruct (N.eqb_spec c 34); [lia|].
  destruct (N.eqb_spec c 92); [lia|].
  destruct (N.ltb_spec c 32); [lia|reflexivity].
Qed.

Lemma parse_quote_chars_bounded (n : nat) :
  forall s rest, (length s <= n)%nat ->
    JSON.parse_string_chars (JSON.quote_chars s ++ 34 :: rest) = Some (s, rest).
Proof.
  induction n as [|n IH]; intros s rest Hlen.
  - destruct s; [reflexivity|simpl in Hlen; lia].
  - destruct s as [|c s]; [reflexivity|].
    simpl in Hlen.
    assert (Hone :
      JSON.parse_string_chars ((JSON.quote_unit c ++ JSON.quote_chars s) ++ 34 :: rest)
      = Some (c :: s, rest)).
    { rewrite <- app_assoc, parse_quote_unit, IH by lia. reflexivity. }
    simpl JSON.quote_chars.
    destruct (JSON.is_leading_surrogate c) eqn:Hlead; [|exact Hone].
    destruct s as [|d s]; [simpl in Hone; rewrite app_nil_r in Hone; exact Hone|].
    destruct (JSON.is_trailing_surrogate d) eqn:Htrail; [|exact Hone].
    change ((c :: d :: JSON.quote_chars s) ++ 34 :: rest)
      with (c :: d :: (JSON.quote_chars s ++ 34 :: rest)).
    rewrite parse_surrogate by (rewrite Hlead; reflexivity).
    rewrite parse_surrogate by (rewrite Htrail; apply orb_true_r).
    rewrite IH by (simpl in Hlen; lia). reflexivity.
Qed.

(** [JSON.parse] reads [QuoteJSONString s] back as [s], whatever follows. *)
Lemma parse_quote_chars (s rest : jsstring) :
  JSON.parse_string_chars (JSON.quote_chars s ++ 34 :: rest) = Some (s, rest).
Proof. now apply (parse_quote_chars_bounded (length s)). Qed.

(** ** JSON: more fuel does not change a result *)

Ltac parse_cases IHv IHe IHm :=
  repeat match goal with
  | H : None = Some _ |- _ => discriminate H
  | H : JSON.cons_result _ ?x = Some _ |- _ =>
      let E := fresh "E" in
      destruct x as [[? ?]|] eqn:E; simpl in H; [|discriminate H];
      first [apply IHe in E | apply IHm in E]; rewrite E; simpl
  | H : match ?x with _ => _ end = Some _ |- _ =>
      lazymatch x with
      | JSON.parse_value _ _ =>
          let E := fresh "E" in
          destruct x as [[? ?]|] eqn:E; [apply IHv in E; rewrite E|discriminate H]
      | JSON.parse_elements _ _ =>
          let E := fresh "E" in
          destruct x as [[? ?]|] eqn:E; [apply IHe in E; rewrite E|discriminate H]
      | JSON.parse_members _ _ =>
          let E := fresh "E" in
          destruct x as [[? ?]|] eqn:E; [apply IHm in E; rewrite E|discriminate H]
      | _ => destruct x eqn:?
      end
  end; try assumption.

Lemma parse_fuel_step (n m : nat) :
  stable (JSON.parse_value n) (JSON.parse_value m) ->
  stable (JSON.parse_elements n) (JSON.parse_elements m) ->
  stable (JSON.parse_members n) (JSON.parse_members m) ->
  stable (JSON.parse_value (S n)) (JSON.parse_value (S m))
  /\ stable (JSON.parse_elements (S n)) (JSON.parse_elements (S m))
  /\ stable (JSON.parse_members (S n)) (JSON.parse_members (S m)).
Proof.
  intros IHv IHe IHm. unfold stable in *. repeat split; intros s r H.
  - simpl in H |- *. parse_cases IHv IHe IHm.
  - simpl in H |- *. parse_cases IHv IHe IHm.
  - simpl in H |- *. parse_cases IHv IHe IHm.
Qed.

Lemma parse_fuel_mono (n : nat) :
  forall m, (n <= m)%nat ->
    stable (JSON.parse_value n) (JSON.parse_value m)
    /\ stable (JSON.parse_elements n) (JSON.parse_elements m)
    /\ stable (JSON.parse_members n) (JSON.parse_members m).
Proof.
  induction n as [|n IH]; intros m Hle.
  - repeat split; intros s r H; discriminate H.
  - destruct m as [|m]; [lia|].
    destruct (IH m ltac:(lia)) as (Hv & He & Hm).
    now apply parse_fuel_step.
Qed.

(** Enough fuel for a text is enough for [JSON.parse]. *)
Lemma parse_with_fuel (n : nat) (text : jsstring) (v : value) (rest : jsstring) :
  JSON.parse_value n (JSON.skip_whitespace text) = Some (v, rest) ->
  JSON.skip_whitespace rest = [] ->
  (n <= S (length text))%nat ->
  JSON.parse text = Normal v.
Proof.
  intros Hv Hrest Hn. unfold JSON.parse.
  destruct (parse_fuel_mono n (S (length text)) Hn) as (Hmono & _ & _).
  rewrite (Hmono _ _ Hv), Hrest. reflexivity.
Qed.

(** ** JSON: the recursion bound is never what makes a parse fail *)

Lemma skip_whitespace_length (s : jsstring) :
  (length (JSON.skip_whitespace s) <= length s)%nat.
Proof.
  induction s as [|c s IH]; simpl; [lia|].
  destruct (JSON.is_whitespace c); simpl; lia.
Qed.

Lemma cons_result_some {A B} (a : A) (x : option (list A * B)) (l : list A) (b : B) :
  JSON.cons_result a x = Some (l, b) -> exists l', x = Some (l', b) /\ l = a :: l'.
Proof.
  destruct x as [[l' b']|]; simpl; intros H; inversion H; subst; eauto.
Qed.

Lemma parse_string_chars_length_bounded (n : nat) :
  forall s str rest, (length s <= n)%nat ->
    JSON.parse_string_chars s = Some (str, rest) -> (length rest < length s)%nat.
Proof.
  induction n as [|n IH]; intros s str rest Hlen H.
  - destruct s; [discriminate H|simpl in Hlen; lia].
  - destruct s as [|c s]; [discriminate H|]. simpl in Hlen, H.
    destruct (c =? 34); [inversion H; subst; simpl; lia|].
    destruct (c =? 92).
    + destruct s as [|e s]; [discriminate H|].
      destruct (e =? 117).
      * destruct s as [|h1 [|h2 [|h3 [|h4 s]]]]; try discriminate H.
        destruct (JSON.hex4 h1 h2 h3 h4); [|discriminate H].
        apply cons_result_some in H as (l' & H & _).
        apply IH in H; simpl in *; lia.
      * destruct (JSON.simple_escape e); [|discriminate H].
        apply cons_result_some in H as (l' & H & _).
        apply IH in H; simpl in *; lia.
    + destruct (c <? 32); [discriminate H|].
      apply cons_result_some in H as (l' & H & _).
      apply IH in H; simpl in *; lia.
Qed.

Lemma parse_string_chars_length (s str rest : jsstring) :
  JSON.parse_string_chars s = Some (str, rest) -> (length rest < length s)%nat.
Proof. now apply (parse_string_chars_length_bounded (length s)). Qed.

Lemma span_digits_length (s : jsstring) :
  (length (snd (JSON.span_digits s)) <= length s)%nat.
Proof.
  induction s as [|c s IH]; simpl; [lia|].
  destruct (JSON.is_digit c); simpl; [|lia].
  destruct (JSON.span_digits s); simpl in *; lia.
Qed.

Lemma parse_fraction_length (s fs rest : jsstring) :
  JSON.parse_fraction s = Some (fs, rest) -> (length rest <= length s)%nat.
Proof.
  unfold JSON.parse_fraction. destruct s as [|c s]; intros H.
  - inversion H; subst; simpl; lia.
  - destruct (c =? 46).
    + pose proof (span_digits_length s) as Hs.
      destruct (JSON.span_digits s) as [[|d ds] r]; [discriminate H|].
      inversion H; subst. simpl in *; lia.
    + inversion H; subst; simpl; lia.
Qed.

Lemma minus_sign_length (s : jsstring) :
  (length (snd (JSON.minus_sign s)) <= length s)%nat.
Proof.
  destruct s as [|c s]; simpl; [lia|]. destruct (c =? 45); simpl; lia.
Qed.

Lemma exponent_sign_length (s : jsstring) :
  (length (snd (JSON.exponent_sign s)) <= length s)%nat.
Proof.
  destruct s as [|c s]; simpl; [lia|].
  destruct (c =? 45); simpl; [lia|]. destruct (c =? 43); simpl; lia.
Qed.

Lemma parse_integer_length (s ds rest : jsstring) :
  JSON.parse_integer s = Some (ds, rest) -> (length rest < length s)%nat.
Proof.
  unfold JSON.parse_integer. destruct s as [|d s]; [discriminate|].
  destruct (JSON.is_digit d) eqn:Hd; [|discriminate].
  destruct (d =? 48); intros H; inversion H; subst; [simpl; lia|].
  pose proof (span_digits_length s) as Hs.
  simpl in *. rewrite Hd in *.
  destruct (JSON.span_digits s) as [ds' r]. inversion H; subst. simpl in *; lia.
Qed.

Lemma parse_exponent_length (s : jsstring) (x : Z) (rest : jsstring) :
  JSON.parse_exponent s = Some (x, rest) -> (length rest <= length s)%nat.
Proof.
  unfold JSON.parse_exponent. destruct s as [|c s]; intros H.
  - inversion H; subst; simpl; lia.
  - destruct ((c =? 101) || (c =? 69)).
    + pose proof (exponent_sign_length s) as Hsign.
      destruct (JSON.exponent_sign s) as [negative rest1].
      pose proof (span_digits_length rest1) as Hs.
      destruct (JSON.span_digits rest1) as [[|d ds] r]; [discriminate H|].
      inversion H; subst. simpl in *; lia.
    + inversion H; subst; simpl; lia.
Qed.

Lemma parse_number_length (s : jsstring) (n : number) (rest : jsstring) :
  JSON.parse_number s = Some (n, rest) -> (length rest < length s)%nat.
Proof.
  unfold JSON.parse_number. intros H.
  pose proof (minus_sign_length s) as Hsign.
  destruct (JSON.minus_sign s) as [negative s1].
  destruct (JSON.parse_integer s1) as [[ds s2]|] eqn:Hi; [|discriminate H].
  destruct (JSON.parse_fraction s2) as [[fs s3]|] eqn:Hf; [|discriminate H].
  destruct (JSON.parse_exponent s3) as [[x s4]|] eqn:He; [|discriminate H].
  apply parse_integer_length in Hi. apply parse_fraction_length in Hf.
  apply parse_exponent_length in He.
  inversion H; subst. simpl in *; lia.
Qed.

Lemma expect_length (lit s rest : jsstring) :
  JSON.expect lit s = Some rest -> (length rest <= length s)%nat.
Proof.
  revert s. induction lit as [|c lit IH]; intros s H; simpl in H.
  - inversion H; subst; lia.
  - destruct s as [|d s]; [discriminate H|].
    destruct (c =? d); [|discriminate H].
    apply IH in H. simpl; lia.
Qed.

Lemma parse_value_lift (m k : nat) (s : jsstring) (r : value * jsstring) :
  JSON.parse_value m s = Some r -> (m <= k)%nat -> JSON.parse_value k s = Some r.
Proof. intros H Hle. destruct (parse_fuel_mono m k Hle) as (Hv & _ & _). now apply Hv. Qed.

Lemma parse_elements_lift (m k : nat) (s : jsstring) (r : list value * jsstring) :
  JSON.parse_elements m s = Some r -> (m <= k)%nat -> JSON.parse_elements k s = Some r.
Proof. intros H Hle. destruct (parse_fuel_mono m k Hle) as (_ & He & _). now apply He. Qed.

Lemma parse_members_lift (m k : nat) (s : jsstring)
      (r : list (jsstring * value) * jsstring) :
  JSON.parse_members m s = Some r -> (m <= k)%nat -> JSON.parse_members k s = Some r.
Proof. intros H Hle. destruct (parse_fuel_mono m k Hle) as (_ & _ & Hm). now apply Hm. Qed.

(** Adds to the context how much shorter each remainder is. *)
Ltac length_facts :=
  repeat match goal with
  | E : JSON.skip_whitespace ?x = _ |- _ =>
      let F := fresh "F" in
      pose proof (skip_whitespace_length x) as F; rewrite E in F;
      revert E
  | E : JSON.parse_string_chars _ = Some _ |- _ =>
      apply parse_string_chars_length in E
  | E : JSON.parse_number _ = Some _ |- _ => apply parse_number_length in E
  | E : JSON.expect _ _ = Some _ |- _ => apply expect_length in E
  end;
  intros; simpl length in *.

Ltac rewrite_known :=
  repeat match goal with
  | E : ?x = _ |- context [?x] => rewrite E
  end.

Lemma parse_value_tight_step (n : nat) :
  tight JSON.parse_elements n -> tight JSON.parse_members n ->
  tight JSON.parse_value (S n).
Proof.
  intros IHe IHm s v r H.
  destruct s as [|c s]; [discriminate H|]. cbn [JSON.parse_value] in H.
  destruct (c =? 34) eqn:H34.
  { destruct (JSON.parse_string_chars s) as [[str r']|] eqn:E; inversion H; subst.
    exists 1%nat. split; [length_facts; lia|]. cbn [JSON.parse_value]. now rewrite_known. }
  destruct (c =? 123) eqn:H123.
  { destruct (JSON.skip_whitespace s) as [|d s'] eqn:Ews; [discriminate H|].
    destruct (d =? 125) eqn:H125.
    - inversion H; subst. exists 1%nat. split; [length_facts; lia|].
      cbn [JSON.parse_value]. now rewrite_known.
    - destruct (JSON.parse_members n (d :: s')) as [[ms r']|] eqn:E;
        inversion H; subst.
      apply IHm in E as (m & Hm & E).
      exists (S m). split; [length_facts; lia|]. cbn [JSON.parse_value]. now rewrite_known. }
  destruct (c =? 91) eqn:H91.
  { destruct (JSON.skip_whitespace s) as [|d s'] eqn:Ews; [discriminate H|].
    destruct (d =? 93) eqn:H93.
    - inversion H; subst. exists 1%nat. split; [length_facts; lia|].
      cbn [JSON.parse_value]. now rewrite_known.
    - destruct (JSON.parse_elements n (d :: s')) as [[es r']|] eqn:E;
        inversion H; subst.
      apply IHe in E as (m & Hm & E).
      exists (S m). split; [length_facts; lia|]. cbn [JSON.parse_value]. now rewrite_known. }
  destruct (c =? 116) eqn:H116.
  { destruct (JSON.expect (js "rue") s) as [r'|] eqn:E; inversion H; subst.
    exists 1%nat. split; [length_facts; lia|]. cbn [JSON.parse_value]. now rewrite_known. }
  destruct (c =? 102) eqn:H102.
  { destruct (JSON.expect (js "alse") s) as [r'|] eqn:E; inversion H; subst.
    exists 1%nat. split; [length_facts; lia|]. cbn [JSON.parse_value]. now rewrite_known. }
  destruct (c =? 110) eqn:H110.
  { destruct (JSON.expect (js "ull") s) as [r'|] eqn:E; inversion H; subst.
    exists 1%nat. split; [length_facts; lia|]. cbn [JSON.parse_value]. now rewrite_known. }
  destruct (JSON.parse_number (c :: s)) as [[x r']|] eqn:E; inversion H; subst.
  exists 1%nat. split; [length_facts; lia|].
  cbn [JSON.parse_value]. now rewrite_known.
Qed.

Lemma parse_elements_tight_step (n : nat) :
  tight JSON.parse_value n -> tight JSON.parse_elements n ->
  tight JSON.parse_elements (S n).
Proof.
  intros IHv IHe s vs r H. cbn [JSON.parse_elements] in H.
  destruct (JSON.parse_value n s) as [[v r1]|] eqn:Ev; [|discriminate H].
  destruct (JSON.skip_whitespace r1) as [|d s'] eqn:Ews; [discriminate H|].
  apply IHv in Ev as (m1 & Hm1 & Ev).
  destruct (d =? 44) eqn:H44.
  - apply cons_result_some in H as (vs' & E & ->).
    apply IHe in E as (m2 & Hm2 & E).
    pose proof (skip_whitespace_length s') as Hs'.
    exists (S (Nat.max m1 m2)). split; [length_facts; lia|].
    cbn [JSON.parse_elements].
    rewrite (parse_value_lift m1 _ _ _ Ev) by lia.
    rewrite Ews, H44.
    rewrite (parse_elements_lift m2 _ _ _ E) by lia. reflexivity.
  - destruct (d =? 93) eqn:H93; inversion H; subst.
    exists (S m1). split; [length_facts; lia|].
    cbn [JSON.parse_elements]. now rewrite Ev, Ews, H44, H93.
Qed.

Lemma parse_members_tight_step (n : nat) :
  tight JSON.parse_value n -> tight JSON.parse_members n ->
  tight JSON.parse_members (S n).
Proof.
  intros IHv IHm s ms r H.
  destruct s as [|q s]; [discriminate H|]. cbn [JSON.parse_members] in H.
  destruct (q =? 34) eqn:H34; [|discriminate H].
  destruct (JSON.parse_string_chars s) as [[key r1]|] eqn:Ekey; [|discriminate H].
  destruct (JSON.skip_whitespace r1) as [|colon r2] eqn:Ews1; [discriminate H|].
  destruct (colon =? 58) eqn:H58; [|discriminate H].
  destruct (JSON.parse_value n (JSON.skip_whitespace r2)) as [[v r3]|] eqn:Ev;
    [|discriminate H].
  destruct (JSON.skip_whitespace r3) as [|d r4] eqn:Ews3; [discriminate H|].
  apply IHv in Ev as (m1 & Hm1 & Ev).
  pose proof (skip_whitespace_length r2) as Hr2.
  destruct (d =? 44) eqn:H44.
  - apply cons_result_some in H as (ms' & E & ->).
    apply IHm in E as (m2 & Hm2 & E).
    pose proof (skip_whitespace_length r4) as Hr4.
    exists (S (Nat.max m1 m2)). split; [length_facts; lia|].
    cbn [JSON.parse_members]. rewrite H34, Ekey, Ews1, H58.
    rewrite (parse_value_lift m1 _ _ _ Ev) by lia.
    rewrite Ews3, H44.
    rewrite (parse_members_lift m2 _ _ _ E) by lia. reflexivity.
  - destruct (d =? 125) eqn:H125; inversion H; subst.
    exists (S m1). split; [length_facts; lia|].
    cbn [JSON.parse_members]. now rewrite H34, Ekey, Ews1, H58, Ev, Ews3, H44, H125.
Qed.

Lemma parse_tight (n : nat) :
  tight JSON.parse_value n /\ tight JSON.parse_elements n
  /\ tight JSON.parse_members n.
Proof.
  induction n as [|n (IHv & IHe & IHm)].
  - repeat split; intros s a r H; discriminate H.
  - split; [|split].
    + now apply parse_value_tight_step.
    + now apply parse_elements_tight_step.
    + now apply parse_members_tight_step.
Qed.

(** Whatever a larger recursion bound would find, [JSON.parse] finds: it
    throws only on a text that is not JSON. *)
Theorem parse_bound_suffices (n : nat) (text : jsstring) (v : value) (rest : jsstring) :
  JSON.parse_value n (JSON.skip_whitespace text) = Some (v, rest) ->
  JSON.skip_whitespace rest = [] ->
  JSON.parse text = Normal v.
Proof.
  intros H Hrest.
  destruct (parse_tight n) as (Hv & _ & _).
  apply Hv in H as (m & Hm & H).
  apply parse_with_fuel with (n := m) (rest := rest); auto.
  pose proof (skip_whitespace_length text). lia.
Qed.

(** ** JSON: what is written is read back *)

Lemma plain_array (xs : list value) : plain (VArray xs) <-> Forall plain xs.
Proof.
  simpl. induction xs as [|x xs IH].
  - split; auto.
  - split.
    + intros [Hx Hxs]. constructor; [exact Hx|now apply IH].
    + intros H. inversion H; subst. split; [assumption|now apply IH].
Qed.

Lemma plain_object (props : list (jsstring * value)) :
  plain (VObject props)
  <-> distinct (map fst props) /\ Forall (fun kv => plain (snd kv)) props.
Proof.
  simpl. apply and_iff_compat_l.
  induction props as [|kv props IH].
  - split; auto.
  - split.
    + intros [Hx Hxs]. constructor; [exact Hx|now apply IH].
    + intros H. inversion H; subst. split; [assumption|now apply IH].
Qed.

(** Induction on a value with the hypothesis for every element and for
    every property value. *)
Lemma value_nested_ind (P : value -> Prop) :
  P VUndefined -> P VNull -> (forall b, P (VBool b)) ->
  (forall n, P (VNumber n)) -> (forall s, P (VString s)) ->
  (forall xs, Forall P xs -> P (VArray xs)) ->
  (forall props, Forall (fun kv => P (snd kv)) props -> P (VObject props)) ->
  forall v, P v.
Proof.
  intros Hu Hn Hb Hnum Hs Ha Ho.
  fix self 1.
  intros [| |b|n|s|xs|props];
    [exact Hu|exact Hn|apply Hb|apply Hnum|apply Hs| |].
  - apply Ha. induction xs as [|x xs IH]; constructor; [apply self|exact IH].
  - apply Ho. induction props as [|[k x] props IH]; constructor;
      [apply self|exact IH].
Qed.

Lemma digit_or_minus_starts_value (c : N) :
  (JSON.is_digit c || (c =? 45)) = true -> starts_value c.
Proof.
  intros H. unfold starts_value. 
  assert (Hc : 45 <= c <= 57).
  { apply orb_true_iff in H as [H|H].
    - unfold JSON.is_digit in H. apply andb_true_iff in H as [H1 H2].
      apply N.leb_le in H1, H2. lia.
    - apply N.eqb_eq in H. lia. }
  repeat split; try lia; [|intuition].
  unfold JSON.is_whitespace.
  repeat (apply orb_false_iff; split); apply N.eqb_neq; lia.
Qed.

Lemma serialized_head (v : value) :
  plain v -> exists c tl, serialized v = c :: tl /\ starts_value c.
Proof.
  unfold starts_value.
  destruct v as [| |[|]|n|s|xs|props]; simpl; intros Hv.
  - contradiction.
  - do 2 eexists; split; [reflexivity|]. repeat split; try discriminate. intuition.
  - do 2 eexists; split; [reflexivity|]. repeat split; try discriminate. intuition.
  - do 2 eexists; split; [reflexivity|]. repeat split; try discriminate. intuition.
  - destruct Hv as [(c & tl & Hn & Hc) _]. exists c, tl. split; [exact Hn|].
    now apply digit_or_minus_starts_value.
  - do 2 eexists; split; [reflexivity|]. repeat split; try discriminate. intuition.
  - do 2 eexists; split; [reflexivity|]. repeat split; try discriminate. intuition.
  - do 2 eexists; split; [reflexivity|]. repeat split; try discriminate. intuition.
Qed.

Lemma serialize_plain (v : value) :
  plain v -> JSON.SerializeJSONProperty v = Some (serialized v).
Proof.
  unfold serialized. destruct v as [ | | [ | ] | n | s | xs | props ]; simpl; intros H;
    try reflexivity; contradiction.
Qed.

Lemma serialized_array (xs : list value) :
  Forall plain xs ->
  serialized (VArray xs)
  = 91 :: join_strings [44] (map serialized xs) ++ [93].
Proof.
  intros H. unfold serialized at 1. simpl. do 3 f_equal.
  induction H as [|x xs Hx _ IH]; simpl; [reflexivity|].
  rewrite IH. f_equal. unfold serialized. now rewrite serialize_plain.
Qed.

Lemma serialized_object (props : list (jsstring * value)) :
  Forall (fun kv => plain (snd kv)) props ->
  serialized (VObject props)
  = 123 :: join_strings [44] (map member_text props) ++ [125].
Proof.
  intros H. unfold serialized at 1. simpl. do 3 f_equal.
  induction H as [|kv props Hx _ IH]; simpl; [reflexivity|].
  rewrite IH, (serialize_plain _ Hx). reflexivity.
Qed.

Lemma skip_whitespace_starts_value (c : N) (s : jsstring) :
  starts_value c -> JSON.skip_whitespace (c :: s) = c :: s.
Proof. intros (Hws & _). simpl. now rewrite Hws. Qed.

Lemma skip_whitespace_delimiter (c : N) (s : jsstring) :
  c = 44 \/ c = 93 \/ c = 125 -> JSON.skip_whitespace (c :: s) = c :: s.
Proof. intros [ -> | [ -> | -> ] ]; reflexivity. Qed.

Lemma join_strings_cons (sep p : jsstring) (ps : list jsstring) :
  join_strings sep (p :: ps)
  = p ++ match ps with [] => [] | _ :: _ => sep ++ join_strings sep ps end.
Proof. destruct ps; simpl; [now rewrite app_nil_r|reflexivity]. Qed.

(** The elements of an array, after the opening bracket. *)
Lemma elements_read_back (xs : list value) :
  xs <> [] ->
  Forall (fun x => plain x /\ reads_back x) xs ->
  forall rest,
    JSON.parse_elements
      (S (length (join_strings [44] (map serialized xs))))
      (join_strings [44] (map serialized xs) ++ 93 :: rest)
    = Some (xs, rest).
Proof.
  intros Hne H. induction H as [|x xs [Hplain Hx] Hxs IH]; [contradiction|].
  intros rest. cbn [map]. rewrite join_strings_cons.
  destruct xs as [|y ys].
  - rewrite app_nil_r. cbn [JSON.parse_elements].
    rewrite Hx by (simpl; auto). reflexivity.
  - cbn [map] in *. cbv iota.
    set (J := join_strings [44] (serialized y :: map serialized ys)) in *.
    cbn [JSON.parse_elements].
    rewrite <- app_assoc. cbn [app].
    destruct (parse_fuel_mono (length (serialized x))
                (length (serialized x ++ 44 :: J))) as (Hv & _ & _).
    { rewrite length_app. lia. }
    rewrite (Hv _ _ (Hx (44 :: J ++ 93 :: rest) ltac:(simpl; auto))).
    rewrite skip_whitespace_delimiter by auto.
    change (44 =? 44) with true. cbv iota.
    destruct (parse_fuel_mono (S (length J))
                (length (serialized x ++ 44 :: J))) as (_ & He & _).
    { rewrite length_app. simpl. lia. }
    assert (Hskip : JSON.skip_whitespace (J ++ 93 :: rest) = J ++ 93 :: rest).
    { inversion Hxs as [|? ? [Hy _] _]; subst.
      destruct (serialized_head y Hy) as (c & tl & Hser & Hc).
      subst J. rewrite join_strings_cons, Hser. cbn [app].
      now apply skip_whitespace_starts_value. }
    rewrite Hskip.
    rewrite (He _ _ (IH ltac:(discriminate) rest)). reflexivity.
Qed.

(** One property, and what [parse_members] does after it. *)
Lemma member_read_back (n : nat) (k : jsstring) (v : value) (tail : jsstring) :
  plain v -> reads_back v -> (length (serialized v) <= n)%nat -> delimited tail ->
  JSON.parse_members (S n) (member_text (k, v) ++ tail)
  = match tail with
    | [] => None
    | d :: rest =>
        if d =? 44 then
          JSON.cons_result (k, v) (JSON.parse_members n (JSON.skip_whitespace rest))
        else if d =? 125 then Some ([(k, v)], rest)
        else None
    end.
Proof.
  intros Hplain Hv Hn Htail.
  unfold member_text, JSON.QuoteJSONString. cbn [fst snd].
  change (js ":") with [58].
  rewrite <- !app_assoc. cbn [app JSON.parse_members].
  change (34 =? 34) with true. cbv iota.
  rewrite parse_quote_chars.
  change (JSON.skip_whitespace (58 :: serialized v ++ tail))
    with (58 :: serialized v ++ tail).
  change (58 =? 58) with true. cbv iota.
  destruct (serialized_head v Hplain) as (c & tl & Hser & Hc).
  assert (Hskip : JSON.skip_whitespace (serialized v ++ tail) = serialized v ++ tail).
  { rewrite Hser. now apply skip_whitespace_starts_value. }
  rewrite Hskip.
  destruct (parse_fuel_mono (length (serialized v)) n Hn) as (Hmono & _ & _).
  rewrite (Hmono _ _ (Hv tail Htail)).
  destruct tail as [|d rest]; [reflexivity|].
  now rewrite skip_whitespace_delimiter.
Qed.

(** The properties of an object, after the opening brace. *)
Lemma members_read_back (props : list (jsstring * value)) :
  props <> [] ->
  Forall (fun kv => plain (snd kv) /\ reads_back (snd kv)) props ->
  forall rest,
    JSON.parse_members
      (S (length (join_strings [44] (map member_text props))))
      (join_strings [44] (map member_text props) ++ 125 :: rest)
    = Some (props, rest).
Proof.
  intros Hne H. induction H as [|[k v] props [Hplain Hv] Hprops IH]; [contradiction|].
  intros rest. cbn [map snd] in *. rewrite join_strings_cons.
  assert (Hlen : (length (serialized v) <= length (member_text (k, v)))%nat).
  { unfold member_text. cbn [fst snd]. rewrite !length_app. lia. }
  destruct props as [|kv' props'].
  - rewrite app_nil_r.
    rewrite (member_read_back _ k v (125 :: rest) Hplain Hv Hlen)
      by (simpl; auto).
    reflexivity.
  - cbn [map] in *.
    set (J := join_strings [44] (member_text kv' :: map member_text props')) in *.
    rewrite <- app_assoc. cbn [app].
    assert (Hlen' : (length (serialized v)
                     <= length (member_text (k, v) ++ 44%N :: J))%nat)
      by (rewrite length_app; lia).
    rewrite (member_read_back _ k v (44 :: J ++ 125 :: rest) Hplain Hv Hlen')
      by (simpl; auto).
    change (44 =? 44) with true. cbv iota.
    destruct (parse_fuel_mono (S (length J))
                (length (member_text (k, v) ++ 44 :: J))) as (_ & _ & Hm).
    { rewrite length_app. simpl. lia. }
    assert (Hskip : JSON.skip_whitespace (J ++ 125 :: rest) = J ++ 125 :: rest).
    { subst J. rewrite join_strings_cons. destruct kv' as [k' v'].
      reflexivity. }
    rewrite Hskip.
    rewrite (Hm _ _ (IH ltac:(discriminate) rest)). reflexivity.
Qed.

(** With no repeated key, [JSON.parse] builds the object as written. *)
Lemma set_property_fresh (props : list (jsstring * value)) (key : jsstring) (v : value) :
  (forall k, In k (map fst props) -> jsstring_eqb k key = false) ->
  JSON.set_property props key v = props ++ [(key, v)].
Proof.
  induction props as [|[k w] props IH]; intros Hfresh; simpl; [reflexivity|].
  rewrite (Hfresh k) by (simpl; auto).
  rewrite IH; [reflexivity|]. intros k' Hk'. apply Hfresh. simpl; auto.
Qed.

Lemma fold_set_property (members acc : list (jsstring * value)) :
  distinct (map fst members) ->
  (forall k k', In k (map fst acc) -> In k' (map fst members) ->
                jsstring_eqb k k' = false) ->
  fold_left (fun props kv => JSON.set_property props (fst kv) (snd kv)) members acc
  = acc ++ members.
Proof.
  revert acc. induction members as [|[k v] members IH]; intros acc Hd Hacc; simpl.
  - now rewrite app_nil_r.
  - destruct Hd as [Hk Hd]. simpl in Hk.
    rewrite set_property_fresh by (intros k0 Hk0; apply Hacc; simpl; auto).
    rewrite IH; [now rewrite <- app_assoc|assumption|].
    intros k0 k' Hk0 Hk'. rewrite map_app, in_app_iff in Hk0.
    destruct Hk0 as [Hk0|[<-|[]]].
    + apply Hacc; simpl; auto.
    + now apply Hk.
Qed.

Lemma build_object_distinct (props : list (jsstring * value)) :
  distinct (map fst props) -> JSON.build_object props = VObject props.
Proof.
  intros Hd. unfold JSON.build_object.
  rewrite fold_set_property; [reflexivity|assumption|].
  intros k k' [].
Qed.

Lemma head_tests_of_digit_or_minus (c : N) :
  (JSON.is_digit c || (c =? 45)) = true ->
  (c =? 34) = false /\ (c =? 123) = false /\ (c =? 91) = false
  /\ (c =? 116) = false /\ (c =? 102) = false /\ (c =? 110) = false.
Proof.
  intros H.
  assert (Hc : 45 <= c <= 57).
  { apply orb_true_iff in H as [H|H].
    - unfold JSON.is_digit in H. apply andb_true_iff in H as [H1 H2].
      apply N.leb_le in H1, H2. lia.
    - apply N.eqb_eq in H. lia. }
  repeat split; apply N.eqb_neq; lia.
Qed.

(** Every plain value is read back from its text. *)
Theorem plain_reads_back (v : value) : plain v -> reads_back v.
Proof.
  induction v as [| |b|n|s|xs IH|props IH] using value_nested_ind;
    intros Hplain rest Hrest.
  - contradiction.
  - reflexivity.
  - destruct b; reflexivity.
  - destruct Hplain as [(c & tl & Hn & Hc) Hread].
    change (serialized (VNumber n)) with (Number_toString n).
    specialize (Hread rest Hrest). rewrite Hn in *. 
    destruct (head_tests_of_digit_or_minus c Hc) as (H1 & H2 & H3 & H4 & H5 & H6).
    cbn [length app JSON.parse_value].
    rewrite H1, H2, H3, H4, H5, H6. cbn [app] in Hread. now rewrite Hread.
  - change (serialized (VString s)) with (34 :: JSON.quote_chars s ++ [34]).
    cbn [length app JSON.parse_value]. change (34 =? 34) with true. cbv iota.
    rewrite <- app_assoc. cbn [app]. now rewrite parse_quote_chars.
  - apply plain_array in Hplain.
    rewrite (serialized_array xs Hplain).
    assert (Hall : Forall (fun x => plain x /\ reads_back x) xs).
    { clear -IH Hplain. induction Hplain as [|x xs Hx Hxs IHxs]; constructor;
        inversion IH; subst; auto. }
    destruct xs as [|x xs'].
    + reflexivity.
    + set (J := join_strings [44] (map serialized (x :: xs'))) in *.
      cbn [length app JSON.parse_value].
      change (91 =? 34) with false. change (91 =? 123) with false.
      change (91 =? 91) with true. cbv iota.
      rewrite <- app_assoc. cbn [app].
      inversion Hplain as [|? ? Hx _]; subst.
      destruct (serialized_head x Hx) as (c & tl & Hser & Hc).
      assert (HJ : exists tl', J = c :: tl').
      { subst J. cbn [map]. rewrite join_strings_cons, Hser. cbn [app]. eauto. }
      destruct HJ as [tl' HJ].
      pose proof (elements_read_back (x :: xs') ltac:(discriminate) Hall rest) as He.
      fold J in He. rewrite length_app. cbn [length]. rewrite Nat.add_1_r.
      rewrite HJ in *. cbn [app] in *.
      rewrite (skip_whitespace_starts_value _ _ Hc).
      destruct Hc as (_ & Hc93 & _). apply N.eqb_neq in Hc93. rewrite Hc93.
      now rewrite He.
  - apply plain_object in Hplain. destruct Hplain as [Hd Hplain].
    rewrite (serialized_object props Hplain).
    assert (Hall : Forall (fun kv => plain (snd kv) /\ reads_back (snd kv)) props).
    { clear -IH Hplain. induction Hplain as [|x xs Hx Hxs IHxs]; constructor;
        inversion IH; subst; auto. }
    destruct props as [|[k x] props'].
    + reflexivity.
    + set (J := join_strings [44] (map member_text ((k, x) :: props'))) in *.
      cbn [length app JSON.parse_value].
      change (123 =? 34) with false. change (123 =? 123) with true. cbv iota.
      rewrite <- app_assoc. cbn [app].
      assert (HJ : exists tl', J = 34 :: tl').
      { subst J. cbn [map]. rewrite join_strings_cons. eexists. reflexivity. }
      destruct HJ as [tl' HJ].
      pose proof (members_read_back ((k, x) :: props') ltac:(discriminate) Hall rest)
        as Hm.
      fold J in Hm. rewrite length_app. cbn [length]. rewrite Nat.add_1_r.
      rewrite HJ in *. cbn [app] in *.
      change (JSON.skip_whitespace (34 :: tl' ++ 125 :: rest))
        with (34 :: tl' ++ 125 :: rest).
      change (34 =? 125) with false. cbv iota.
      rewrite Hm. now rewrite build_object_distinct.
Qed.

(** [JSON.parse(JSON.stringify(v))] is [v] for every plain value. *)
Theorem parse_stringify (v : value) :
  plain v -> JSON.parse (serialized v) = Normal v.
Proof.
  intros Hplain.
  destruct (serialized_head v Hplain) as (c & tl & Hser & Hc).
  apply parse_with_fuel with (n := length (serialized v)) (rest := []).
  - rewrite Hser, (skip_whitespace_starts_value _ _ Hc), <- Hser.
    rewrite <- (app_nil_r (serialized v)) at 2.
    now apply plain_reads_back.
  - reflexivity.
  - lia.
Qed.

(** ** The bodies the handler writes *)

Ltac number_reads_back :=
  split;
  [ do 2 eexists; split; reflexivity
  | intros [|c rest] Hrest;
    [ reflexivity | destruct Hrest as [ -> | [ -> | -> ] ]; reflexivity ] ].

Lemma number_ok_200 : number_ok (Num false 200 0).
Proof. number_reads_back. Qed.

Lemma number_ok_0_7 : number_ok (Num false 7 (-1)).
Proof. number_reads_back. Qed.

Lemma distinctb_distinct (keys : list jsstring) :
  distinctb keys = true -> distinct keys.
Proof.
  induction keys as [|k keys IH]; simpl; [trivial|].
  intros H. apply andb_true_iff in H as [Hk Hrest]. split; [|now apply IH].
  intros k' Hin. rewrite forallb_forall in Hk.
  specialize (Hk k' Hin). now apply negb_true_iff in Hk.
Qed.

Ltac distinct_keys := apply distinctb_distinct; reflexivity.

Ltac plain_value :=
  cbn [plain map fst snd];
  repeat match goal with
  | |- distinct _ => distinct_keys
  | |- number_ok (Num false 200 0) => exact number_ok_200
  | |- number_ok (Num false 7 (-1)) => exact number_ok_0_7
  | |- _ /\ _ => split
  | |- True => exact I
  end.

Lemma request_payload_plain (prompt : jsstring) :
  plain (VObject (request_properties prompt)).
Proof. unfold request_properties. plain_value. Qed.

Lemma request_body_text (prompt : jsstring) :
  request_body prompt
  = request_prefix ++ JSON.QuoteJSONString prompt ++ request_suffix.
Proof.
  unfold request_body, request_properties, JSON.stringify_object,
    JSON.stringify, JSON.QuoteJSONString.
  cbn -[Number_toString].
  change (Number_toString (Num false 200 0)) with (js "200").
  change (Number_toString (Num false 7 (-1))) with (js "0.7").
  cbn. rewrite <- !app_assoc. reflexivity.
Qed.

Lemma request_body_parses (prompt : jsstring) :
  JSON.parse (request_body prompt) = Normal (VObject (request_properties prompt)).
Proof. exact (parse_stringify _ (request_payload_plain prompt)). Qed.

Lemma stringify_object_serialized (props : list (jsstring * value)) :
  JSON.stringify_object props = serialized (VObject props).
Proof. reflexivity. Qed.

(** The success body is the object of the four strings. *)
Lemma success_body_parses (region modelId prompt text : jsstring) :
  JSON.parse (HttpResponse.body (success_response region modelId prompt text))
  = Normal (VObject [(js "region", VString region);
                     (js "modelId", VString modelId);
                     (js "prompt", VString prompt);
                     (js "text", VString text)]).
Proof.
  cbn [success_response HttpResponse.body]. rewrite stringify_object_serialized.
  apply parse_stringify. plain_value.
Qed.

(** The failure body of an error whose name and message are strings or
    are missing: the message, and the name and message that are there. *)
Lemma failure_body_parses (err : value) :
  string_or_undefined (GetOptional err (js "name")) ->
  string_or_undefined (GetOptional err (js "message")) ->
  JSON.parse (HttpResponse.body (failure_response err))
  = Normal (VObject (defined_properties
                       [(js "message", VString (js "Bedrock invoke failed"));
                        (js "errorName", GetOptional err (js "name"));
                        (js "errorMessage", GetOptional err (js "message"))])).
Proof.
  intros Hname Hmessage. cbn [failure_response HttpResponse.body].
  destruct Hname as [ -> | [name ->] ]; destruct Hmessage as [ -> | [message ->] ];
    cbn [defined_properties filter snd].
  - change (JSON.stringify_object
              [(js "message", VString (js "Bedrock invoke failed"));
               (js "errorName", VUndefined); (js "errorMessage", VUndefined)])
      with (serialized (VObject [(js "message", VString (js "Bedrock invoke failed"))])).
    apply parse_stringify. plain_value.
  - change (JSON.stringify_object
              [(js "message", VString (js "Bedrock invoke failed"));
               (js "errorName", VUndefined); (js "errorMessage", VString message)])
      with (serialized (VObject [(js "message", VString (js "Bedrock invoke failed"));
                                 (js "errorMessage", VString message)])).
    apply parse_stringify. plain_value.
  - change (JSON.stringify_object
              [(js "message", VString (js "Bedrock invoke failed"));
               (js "errorName", VString name); (js "errorMessage", VUndefined)])
      with (serialized (VObject [(js "message", VString (js "Bedrock invoke failed"));
                                 (js "errorName", VString name)])).
    apply parse_stringify. plain_value.
  - rewrite stringify_object_serialized. apply parse_stringify. plain_value.
Qed.

(** No key of the failure body is [prompt], [region] or [modelId]. *)
Lemma failure_body_keys (name message : value) (key : jsstring) :
  key = js "prompt" \/ key = js "region" \/ key = js "modelId" ->
  lookup key (defined_properties
                [(js "message", VString (js "Bedrock invoke failed"));
                 (js "errorName", name); (js "errorMessage", message)])
  = VUndefined.
Proof.
  intros [ -> | [ -> | -> ] ]; destruct name, message; reflexivity.
Qed.

(** * The pipeline's properties *)

(** The handler always returns, with one of the two responses. *)
Lemma handler_returns {Remote}
      (provider : Remote -> BedrockRuntimeClient.t -> InvokeModelCommand.t ->
                  completion InvokeModelCommandOutput.t * Remote)
      (env : ProcessEnv.t) (event : ApiGatewayEvent.t) (w : World Remote) :
  (exists text,
      handler provider env event w
      = (Normal (success_response (region_of env) (modelId_of env)
                                  (normalize_prompt event) text),
         after_send provider env event w))
  \/ (exists err,
        raises provider env event w err
        /\ handler provider env event w
           = (Normal (failure_response err), after_failure provider env event w err)).
Proof.
  destruct (success_or_failure provider env event w)
    as [(resp & text & Ha & Ht)|[err He]].
  - left. exists text. now apply handler_success with (resp := resp).
  - right. exists err. split; [assumption|now apply handler_failure].
Qed.



(** C2: whatever the event and whatever the provider does, the handler
    returns a response, with status 200 or 500, the JSON content type and
    a serialized object as body; it never throws. *)
Theorem handler_always_responds {Remote}
        (provider : Remote -> BedrockRuntimeClient.t -> InvokeModelCommand.t ->
                    completion InvokeModelCommandOutput.t * Remote)
        (env : ProcessEnv.t) (event : ApiGatewayEvent.t) (w : World Remote) :
  exists response w',
    handler provider env event w = (Normal response, w')
    /\ (HttpResponse.statusCode response = 200
        \/ HttpResponse.statusCode response = 500)
    /\ HttpResponse.headers response = [(js "content-type", js "application/json")]
    /\ exists props, HttpResponse.body response = JSON.stringify_object props.
Proof.
  destruct (handler_returns provider env event w) as [[text H]|(err & _ & H)];
    rewrite H; do 2 eexists; (split; [reflexivity|]).
  - split; [now left|]. split; [reflexivity|]. eexists. reflexivity.
  - split; [now right|]. split; [reflexivity|]. eexists. reflexivity.
Qed.

(** C3: when the provider call, or the decoding of its answer, raises
    [err], the response has status 500 and its body is the object of the
    fixed message, [err.name] and [err.message], and of nothing else: read
    back, it has no [prompt], [region] or [modelId]. *)
Theorem failure_gives_500 {Remote}
        (provider : Remote -> BedrockRuntimeClient.t -> InvokeModelCommand.t ->
                    completion InvokeModelCommandOutput.t * Remote)
        (env : ProcessEnv.t) (event : ApiGatewayEvent.t) (w : World Remote)
        (err : value) :
  raises provider env event w err ->
  exists response w',
    handler provider env event w = (Normal response, w')
    /\ HttpResponse.statusCode response = 500
    /\ HttpResponse.body response
       = JSON.stringify_object
           [(js "message", VString (js "Bedrock invoke failed"));
            (js "errorName", GetOptional err (js "name"));
            (js "errorMessage", GetOptional err (js "message"))]
    /\ (string_or_undefined (GetOptional err (js "name")) ->
        string_or_undefined (GetOptional err (js "message")) ->
        exists parsed,
          JSON.parse (HttpResponse.body response) = Normal parsed
          /\ parsed
             = VObject (defined_properties
                          [(js "message", VString (js "Bedrock invoke failed"));
                           (js "errorName", GetOptional err (js "name"));
                           (js "errorMessage", GetOptional err (js "message"))])
          /\ GetOptional parsed (js "prompt") = VUndefined
          /\ GetOptional parsed (js "region") = VUndefined
          /\ GetOptional parsed (js "modelId") = VUndefined).
Proof.
  intros Hraises. rewrite (handler_failure provider env event w err Hraises).
  do 2 eexists. split; [reflexivity|]. split; [reflexivity|]. split; [reflexivity|].
  intros Hname Hmessage. eexists. split; [|split; [reflexivity|]].
  - exact (failure_body_parses err Hname Hmessage).
  - cbn [GetOptional]. repeat split; apply failure_body_keys; auto.
Qed.

(** C3 at a throttled call: status 500 and [errorName] is
    "ThrottlingException". *)
Lemma failure_gives_500_witness :
  raises (constant_provider (Throw throttling)) no_env
         (event_with "{'prompt':'Say hi'}") empty_world throttling
  /\ exists response w',
       handler (constant_provider (Throw throttling)) no_env
               (event_with "{'prompt':'Say hi'}") empty_world
       = (Normal response, w')
       /\ HttpResponse.statusCode response = 500
       /\ HttpResponse.body response
          = jq "{'message':'Bedrock invoke failed','errorName':'ThrottlingException','errorMessage':'Rate exceeded'}".
Proof.
  assert (Hraises : raises (constant_provider (Throw throttling)) no_env
                           (event_with "{'prompt':'Say hi'}") empty_world throttling)
    by reflexivity.
  split; [exact Hraises|].
  destruct (failure_gives_500 _ _ _ _ _ Hraises)
    as (response & w' & Hrun & Hstatus & Hbody & _).
  exists response, w'. split; [exact Hrun|]. split; [exact Hstatus|].
  rewrite Hbody. reflexivity.
Defined.

(** C4: when [content] is an array, the extracted text is the
    concatenation, in order and with no separator, of the [text] of the
    blocks whose [type] is "text" and whose [text] is a string; the other
    blocks are dropped and nothing is thrown.  That text is the [text] of
    the 200 response. *)
Theorem extracted_text_is_concatenation (raw : value) (blocks : list value) :
  GetOptional raw (js "content") = VArray blocks ->
  extract_text raw = Normal (spec_concat_text blocks)
  /\ forall Remote
       (provider : Remote -> BedrockRuntimeClient.t -> InvokeModelCommand.t ->
                   completion InvokeModelCommandOutput.t * Remote)
       (env : ProcessEnv.t) (event : ApiGatewayEvent.t) (w : World Remote)
       (resp : InvokeModelCommandOutput.t),
       answer_of provider env event w = Normal resp ->
       JSON.parse (TextDecoder.decode (InvokeModelCommandOutput.body resp))
       = Normal raw ->
       exists response w',
         handler provider env event w = (Normal response, w')
         /\ HttpResponse.statusCode response = 200
         /\ JSON.parse (HttpResponse.body response)
            = Normal (VObject [(js "region", VString (region_of env));
                               (js "modelId", VString (modelId_of env));
                               (js "prompt", VString (normalize_prompt event));
                               (js "text", VString (spec_concat_text blocks))]).
Proof.
  intros Hcontent.
  pose proof (extract_text_array raw blocks Hcontent) as Htext.
  split; [exact Htext|].
  intros Remote provider env event w resp Hanswer Hparse.
  assert (Hresp : response_text resp = Normal (spec_concat_text blocks)).
  { unfold response_text. rewrite Hparse. exact Htext. }
  rewrite (handler_success provider env event w resp _ Hanswer Hresp).
  do 2 eexists. split; [reflexivity|]. split; [reflexivity|].
  apply success_body_parses.
Qed.

(** C4 at a text block, an image block and a text block: "AB". *)
Lemma extracted_text_is_concatenation_witness :
  GetOptional (VObject [(js "content", VArray mixed_blocks)]) (js "content")
  = VArray mixed_blocks
  /\ extract_text (VObject [(js "content", VArray mixed_blocks)]) = Normal (js "AB").
Proof.
  split; [reflexivity|].
  exact (proj1 (extracted_text_is_concatenation
                  (VObject [(js "content", VArray mixed_blocks)]) mixed_blocks
                  eq_refl)).
Defined.

(** C5: the body of the one request an invocation sends is the fixed text
    around the quoted prompt, and it is the JSON object with the version
    tag, [max_tokens] 200, [temperature] 0.7 and one user message whose
    content is one text block holding the prompt; neither the environment
    nor the event changes anything but the prompt. *)
Theorem request_payload_shape {Remote}
        (provider : Remote -> BedrockRuntimeClient.t -> InvokeModelCommand.t ->
                    completion InvokeModelCommandOutput.t * Remote)
        (env : ProcessEnv.t) (event : ApiGatewayEvent.t) (w : World Remote) :
  exists client command,
    sent (snd (handler provider env event w)) = sent w ++ [(client, command)]
    /\ InvokeModelCommand.body command
       = request_prefix ++ JSON.QuoteJSONString (normalize_prompt event)
                        ++ request_suffix
    /\ JSON.parse (InvokeModelCommand.body command)
       = Normal
           (VObject
              [(js "anthropic_version", VString (js "bedrock-2023-05-31"));
               (js "max_tokens", VNumber (Num false 200 0));
               (js "temperature", VNumber (Num false 7 (-1)));
               (js "messages",
                VArray
                  [VObject
                     [(js "role", VString (js "user"));
                      (js "content",
                       VArray
                         [VObject
                            [(js "type", VString (js "text"));
                             (js "text", VString (normalize_prompt event))]])]])]).
Proof.
  exists (fst (request_of env event)), (snd (request_of env event)).
  split; [|split].
  - rewrite handler_sent. reflexivity.
  - apply request_body_text.
  - apply request_body_parses.
Qed.

(** C6: a body that is absent, [null], empty, not JSON, or JSON without a
    string [prompt] gives the default prompt, and the handler still
    returns a response. *)
Theorem malformed_body_gives_default (event : ApiGatewayEvent.t) :
  malformed event ->
  normalize_prompt event = js "Hello from Bedrock!"
  /\ forall Remote
       (provider : Remote -> BedrockRuntimeClient.t -> InvokeModelCommand.t ->
                   completion InvokeModelCommandOutput.t * Remote)
       (env : ProcessEnv.t) (w : World Remote),
       exists response w', handler provider env event w = (Normal response, w').
Proof.
  intros Hbad. split.
  - destruct (normalize_prompt_cases event)
      as [H|(text & parsed & Hbody & Hne & Hparse & Hget)]; [exact H|].
    exfalso.
    destruct Hbad as [H|[H|[H|[(t & e & Hb & Hp)|(t & p & Hb & Hp & Hnot)]]]];
      try congruence.
    assert (t = text) by congruence. subst t.
    assert (p = parsed) by congruence. subst p.
    apply (Hnot (normalize_prompt event)). now apply GetOptional_of_Get.
  - intros Remote provider env w.
    destruct (handler_returns provider env event w) as [[text H]|(err & _ & H)];
      rewrite H; eauto.
Qed.

(** C6 at the five bodies of the specification. *)
Lemma malformed_body_gives_default_witness :
  (malformed {| ApiGatewayEvent.body := Absent |}
   /\ normalize_prompt {| ApiGatewayEvent.body := Absent |} = js "Hello from Bedrock!")
  /\ (malformed {| ApiGatewayEvent.body := Null |}
      /\ normalize_prompt {| ApiGatewayEvent.body := Null |} = js "Hello from Bedrock!")
  /\ (malformed (event_with "")
      /\ normalize_prompt (event_with "") = js "Hello from Bedrock!")
  /\ (malformed (event_with "not json")
      /\ normalize_prompt (event_with "not json") = js "Hello from Bedrock!")
  /\ (malformed (event_with "{'prompt': 42}")
      /\ normalize_prompt (event_with "{'prompt': 42}") = js "Hello from Bedrock!").
Proof.
  assert (H1 : malformed {| ApiGatewayEvent.body := Absent |}) by (left; reflexivity).
  assert (H2 : malformed {| ApiGatewayEvent.body := Null |})
    by (right; left; reflexivity).
  assert (H3 : malformed (event_with "")) by (right; right; left; reflexivity).
  assert (H4 : malformed (event_with "not json")).
  { right; right; right; left. do 2 eexists. split; reflexivity. }
  assert (H5 : malformed (event_with "{'prompt': 42}")).
  { right; right; right; right. do 2 eexists. split; [reflexivity|].
    split; [reflexivity|]. intros s. discriminate. }
  split; [split; [exact H1|exact (proj1 (malformed_body_gives_default _ H1))]|].
  split; [split; [exact H2|exact (proj1 (malformed_body_gives_default _ H2))]|].
  split; [split; [exact H3|exact (proj1 (malformed_body_gives_default _ H3))]|].
  split; [split; [exact H4|exact (proj1 (malformed_body_gives_default _ H4))]|].
  split; [exact H5|exact (proj1 (malformed_body_gives_default _ H5))].
Defined.

(** C7: when the body parses to JSON whose [prompt] is the string [s],
    the prompt is [s] as it stands, and [s] is the text of the one content
    block of the payload sent. *)
Theorem supplied_prompt_is_verbatim
        (event : ApiGatewayEvent.t) (text : jsstring) (parsed : value)
        (s : jsstring) :
  ApiGatewayEvent.body event = Str text ->
  JSON.parse text = Normal parsed ->
  Get parsed (js "prompt") = Normal (VString s) ->
  normalize_prompt event = s
  /\ forall Remote
       (provider : Remote -> BedrockRuntimeClient.t -> InvokeModelCommand.t ->
                   completion InvokeModelCommandOutput.t * Remote)
       (env : ProcessEnv.t) (w : World Remote),
       exists client command payload,
         sent (snd (handler provider env event w)) = sent w ++ [(client, command)]
         /\ InvokeModelCommand.body command
            = request_prefix ++ JSON.QuoteJSONString s ++ request_suffix
         /\ JSON.parse (InvokeModelCommand.body command) = Normal payload
         /\ payload_text payload = VString s.
Proof.
  intros Hbody Hparse Hget.
  pose proof (normalize_prompt_string event text parsed s Hbody Hparse Hget) as Hs.
  split; [exact Hs|].
  intros Remote provider env w.
  exists (fst (request_of env event)), (snd (request_of env event)),
    (VObject (request_properties s)).
  split; [|split; [|split]].
  - rewrite handler_sent. reflexivity.
  - cbn [request_of snd InvokeModelCommand.body]. rewrite Hs.
    apply request_body_text.
  - cbn [request_of snd InvokeModelCommand.body]. rewrite Hs.
    apply request_body_parses.
  - reflexivity.
Qed.

(** C7 at a prompt with spaces around it, which are kept. *)
Lemma supplied_prompt_is_verbatim_witness :
  (ApiGatewayEvent.body (event_with "{'prompt':'  Say hi  '}")
   = Str (jq "{'prompt':'  Say hi  '}")
   /\ JSON.parse (jq "{'prompt':'  Say hi  '}")
      = Normal (VObject [(js "prompt", VString (js "  Say hi  "))])
   /\ Get (VObject [(js "prompt", VString (js "  Say hi  "))]) (js "prompt")
      = Normal (VString (js "  Say hi  ")))
  /\ normalize_prompt (event_with "{'prompt':'  Say hi  '}") = js "  Say hi  ".
Proof.
  split; [repeat split|].
  exact (proj1 (supplied_prompt_is_verbatim
                  (event_with "{'prompt':'  Say hi  '}")
                  (jq "{'prompt':'  Say hi  '}")
                  (VObject [(js "prompt", VString (js "  Say hi  "))])
                  (js "  Say hi  ") eq_refl eq_refl eq_refl)).
Defined.

(** C8: when the answer decodes to JSON whose [content] is missing or is
    not an array, the text is empty and the response is still a 200 whose
    body has [text] equal to the empty string. *)
Theorem no_content_array_gives_empty_text {Remote}
        (provider : Remote -> BedrockRuntimeClient.t -> InvokeModelCommand.t ->
                    completion InvokeModelCommandOutput.t * Remote)
        (env : ProcessEnv.t) (event : ApiGatewayEvent.t) (w : World Remote)
        (resp : InvokeModelCommandOutput.t) (raw : value) :
  answer_of provider env event w = Normal resp ->
  JSON.parse (TextDecoder.decode (InvokeModelCommandOutput.body resp)) = Normal raw ->
  isArray (GetOptional raw (js "content")) = false ->
  extract_text raw = Normal []
  /\ exists response w',
       handler provider env event w = (Normal response, w')
       /\ HttpResponse.statusCode response = 200
       /\ JSON.parse (HttpResponse.body response)
          = Normal (VObject [(js "region", VString (region_of env));
                             (js "modelId", VString (modelId_of env));
                             (js "prompt", VString (normalize_prompt event));
                             (js "text", VString [])]).
Proof.
  intros Hanswer Hparse Hcontent.
  pose proof (extract_text_not_array raw Hcontent) as Htext.
  split; [exact Htext|].
  assert (Hresp : response_text resp = Normal []).
  { unfold response_text. rewrite Hparse. exact Htext. }
  rewrite (handler_success provider env event w resp [] Hanswer Hresp).
  do 2 eexists. split; [reflexivity|]. split; [reflexivity|].
  apply success_body_parses.
Qed.

(** C8 at an answer without [content] and at one whose [content] is a
    string. *)
Lemma no_content_array_gives_empty_text_witness :
  (answer_of (constant_provider (answer_with "{'id':'msg_1'}")) no_env
             (event_with "{'prompt':'Say hi'}") empty_world
   = answer_with "{'id':'msg_1'}"
   /\ JSON.parse (TextDecoder.decode (bytes_of "{'id':'msg_1'}"))
      = Normal (VObject [(js "id", VString (js "msg_1"))])
   /\ isArray (GetOptional (VObject [(js "id", VString (js "msg_1"))]) (js "content"))
      = false)
  /\ exists response w',
       handler (constant_provider (answer_with "{'id':'msg_1'}")) no_env
               (event_with "{'prompt':'Say hi'}") empty_world
       = (Normal response, w')
       /\ HttpResponse.statusCode response = 200
       /\ HttpResponse.body response
          = jq "{'region':'us-east-1','modelId':'anthropic.claude-3-sonnet-20240229-v1:0','prompt':'Say hi','text':''}".
Proof.
  split; [repeat split|].
  destruct (no_content_array_gives_empty_text
              (constant_provider (answer_with "{'id':'msg_1'}")) no_env
              (event_with "{'prompt':'Say hi'}") empty_world
              {| InvokeModelCommandOutput.body := bytes_of "{'id':'msg_1'}" |}
              (VObject [(js "id", VString (js "msg_1"))])
              eq_refl eq_refl eq_refl)
    as (_ & response & w' & Hrun & Hstatus & _).
  exists response, w'. split; [exact Hrun|]. split; [exact Hstatus|].
  vm_compute in Hrun. injection Hrun as <- _. reflexivity.
Defined.



(** C10: the request an invocation sends is fixed by the environment and
    the event alone.  Two invocations with the same environment and body
    send the same client configuration and the same command, body
    included, whatever the provider, its state, and what was sent or
    logged before; each sends exactly one request. *)
Theorem request_is_deterministic {Remote1 Remote2}
        (provider1 : Remote1 -> BedrockRuntimeClient.t -> InvokeModelCommand.t ->
                     completion InvokeModelCommandOutput.t * Remote1)
        (provider2 : Remote2 -> BedrockRuntimeClient.t -> InvokeModelCommand.t ->
                     completion InvokeModelCommandOutput.t * Remote2)
        (env : ProcessEnv.t) (event : ApiGatewayEvent.t)
        (w1 : World Remote1) (w2 : World Remote2) :
  exists client command,
    sent (snd (handler provider1 env event w1)) = sent w1 ++ [(client, command)]
    /\ sent (snd (handler provider2 env event w2)) = sent w2 ++ [(client, command)]
    /\ InvokeModelCommand.body command = request_body (normalize_prompt event).
Proof.
  exists (fst (request_of env event)), (snd (request_of env event)).
  rewrite !handler_sent. repeat split.
Qed.

(** Two invocations in a row, on the same provider: the same request
    goes out twice. *)
Corollary repeated_invocation_sends_same_request {Remote}
          (provider : Remote -> BedrockRuntimeClient.t -> InvokeModelCommand.t ->
                      completion InvokeModelCommandOutput.t * Remote)
          (env : ProcessEnv.t) (event : ApiGatewayEvent.t) (w : World Remote) :
  sent (snd (handler provider env event (snd (handler provider env event w))))
  = sent w ++ [request_of env event; request_of env event].
Proof. rewrite !handler_sent, <- app_assoc. reflexivity. Qed.

(** ** The scenario of the specification, run end to end *)

Example say_hi_scenario :
  handler (constant_provider
             (answer_with "{'content':[{'type':'text','text':'Hi there!'}]}"))
          no_env (event_with "{'prompt':'Say hi'}") empty_world
  = (Normal
       {| HttpResponse.statusCode := 200;
          HttpResponse.headers := [(js "content-type", js "application/json")];
          HttpResponse.body :=
            jq "{'region':'us-east-1','modelId':'anthropic.claude-3-sonnet-20240229-v1:0','prompt':'Say hi','text':'Hi there!'}" |},
     {| remote := tt;
        sent :=
          [({| BedrockRuntimeClient.region := js "us-east-1" |},
            {| InvokeModelCommand.modelId :=
                 js "anthropic.claude-3-sonnet-20240229-v1:0";
               InvokeModelCommand.contentType := js "application/json";
               InvokeModelCommand.accept := js "application/json";
               InvokeModelCommand.body :=
                 jq "{'anthropic_version':'bedrock-2023-05-31','max_tokens':200,'temperature':0.7,'messages':[{'role':'user','content':[{'type':'text','text':'Say hi'}]}]}" |})];
        console := [] |}).
Proof. vm_compute. reflexivity. Qed.

Example mixed_blocks_scenario :
  fst (handler
         (constant_provider
            (answer_with "{'content':[{'type':'text','text':'A'},{'type':'image','url':'x'},{'type':'text','text':'B'}]}"))
         no_env (event_with "{'prompt':'Say hi'}") empty_world)
  = Normal (success_response (js "us-east-1")
                             (js "anthropic.claude-3-sonnet-20240229-v1:0")
                             (js "Say hi") (js "AB")).
Proof. vm_compute. reflexivity. Qed.

(** * Further properties of the handler *)

(** ** Configuration *)

Lemma env_or_not_empty (variable : option jsstring) (fallback : jsstring) :
  fallback <> [] -> env_or variable fallback <> [].
Proof.
  intros Hf. unfold env_or. destruct variable as [[|c s]|]; simpl; auto.
  discriminate.
Qed.

(** X1 (chat.ts, lines 25-27 and 53-92): the region of the client and the
    model id of the command are the environment's values where these are
    set and not empty, and the two literals otherwise; a variable set to
    the empty string counts as not set, so neither is ever empty. *)
Theorem configuration_falls_back {Remote}
        (provider : Remote -> BedrockRuntimeClient.t -> InvokeModelCommand.t ->
                    completion InvokeModelCommandOutput.t * Remote)
        (env : ProcessEnv.t) (event : ApiGatewayEvent.t) (w : World Remote) :
  exists client command,
    sent (snd (handler provider env event w)) = sent w ++ [(client, command)]
    /\ BedrockRuntimeClient.region client
       = match ProcessEnv.BEDROCK_REGION env with
         | Some (c :: s) => c :: s
         | Some [] | None => js "us-east-1"
         end
    /\ InvokeModelCommand.modelId command
       = match ProcessEnv.MODEL_ID env with
         | Some (c :: s) => c :: s
         | Some [] | None => js "anthropic.claude-3-sonnet-20240229-v1:0"
         end
    /\ BedrockRuntimeClient.region client <> []
    /\ InvokeModelCommand.modelId command <> [].
Proof.
  exists (fst (request_of env event)), (snd (request_of env event)).
  split; [rewrite handler_sent; reflexivity|].
  cbn [request_of fst snd BedrockRuntimeClient.region InvokeModelCommand.modelId].
  unfold region_of, modelId_of.
  split; [|split; [|split]].
  - unfold env_or. now destruct (ProcessEnv.BEDROCK_REGION env) as [[|c s]|].
  - unfold env_or. now destruct (ProcessEnv.MODEL_ID env) as [[|c s]|].
  - apply env_or_not_empty. discriminate.
  - apply env_or_not_empty. discriminate.
Qed.

(** X2 (the stack, lines 20-23, with chat.ts, lines 25-27): under the
    environment the stack sets, with a region that is not empty, the call
    goes to the stack's region, and the model id sent is the one the
    handler would fall back to without the variable. *)
Theorem stack_environment_agrees (region : jsstring) (event : ApiGatewayEvent.t) :
  region <> [] ->
  BedrockRuntimeClient.region (fst (request_of (chat_lambda_environment region) event))
  = region
  /\ snd (request_of (chat_lambda_environment region) event)
     = snd (request_of no_env event).
Proof.
  intros Hregion. destruct region as [|c s]; [contradiction|].
  split; reflexivity.
Qed.

Lemma stack_environment_agrees_witness :
  js "eu-west-1" <> []
  /\ BedrockRuntimeClient.region
       (fst (request_of (chat_lambda_environment (js "eu-west-1"))
                        (event_with "{'prompt':'Say hi'}")))
     = js "eu-west-1".
Proof.
  assert (H : js "eu-west-1" <> []) by discriminate.
  split; [exact H|].
  exact (proj1 (stack_environment_agrees (js "eu-west-1")
                  (event_with "{'prompt':'Say hi'}") H)).
Defined.

(** ** Outcomes *)



(** X4 (chat.ts, lines 127-132): the handler writes to the error log
    exactly when it answers 500, one line holding the error it caught; a
    200 leaves the log as it was. *)
Theorem logs_exactly_on_failure {Remote}
        (provider : Remote -> BedrockRuntimeClient.t -> InvokeModelCommand.t ->
                    completion InvokeModelCommandOutput.t * Remote)
        (env : ProcessEnv.t) (event : ApiGatewayEvent.t) (w : World Remote) :
  exists response w',
    handler provider env event w = (Normal response, w')
    /\ ((HttpResponse.statusCode response = 200 /\ console w' = console w)
        \/ (HttpResponse.statusCode response = 500
            /\ exists err,
                 raises provider env event w err
                 /\ response = failure_response err
                 /\ console w'
                    = console w ++ [[VString (js "Bedrock invoke failed:"); err]])).
Proof.
  destruct (handler_returns provider env event w) as [[text H]|(err & Hraises & H)];
    rewrite H; do 2 eexists; (split; [reflexivity|]).
  - left. split; reflexivity.
  - right. split; [reflexivity|]. exists err. repeat split. exact Hraises.
Qed.

(** The response is decided by the environment, the event and the
    outcome of the guarded block. *)
Lemma handler_response {Remote}
      (provider : Remote -> BedrockRuntimeClient.t -> InvokeModelCommand.t ->
                  completion InvokeModelCommandOutput.t * Remote)
      (env : ProcessEnv.t) (event : ApiGatewayEvent.t) (w : World Remote) :
  fst (handler provider env event w)
  = Normal match outcome_of provider env event w with
           | Normal text =>
               success_response (region_of env) (modelId_of env)
                                (normalize_prompt event) text
           | Throw err => failure_response err
           end.
Proof.
  unfold outcome_of.
  destruct (answer_of provider env event w) as [resp|err] eqn:Hanswer; simpl.
  - destruct (response_text resp) as [text|err] eqn:Htext.
    + now rewrite (handler_success provider env event w resp text Hanswer Htext).
    + rewrite (handler_failure provider env event w err); [reflexivity|].
      unfold raises. now rewrite Hanswer.
  - rewrite (handler_failure provider env event w err); [reflexivity|].
    unfold raises. now rewrite Hanswer.
Qed.

(** X5 (chat.ts, lines 20-144): nothing is carried from one invocation to
    the next.  Two invocations with the same environment and event whose
    guarded blocks end the same way return the same response, whatever
    the provider, its state, and what was sent and logged before. *)
Theorem response_ignores_history {Remote1 Remote2}
        (provider1 : Remote1 -> BedrockRuntimeClient.t -> InvokeModelCommand.t ->
                     completion InvokeModelCommandOutput.t * Remote1)
        (provider2 : Remote2 -> BedrockRuntimeClient.t -> InvokeModelCommand.t ->
                     completion InvokeModelCommandOutput.t * Remote2)
        (env : ProcessEnv.t) (event : ApiGatewayEvent.t)
        (w1 : World Remote1) (w2 : World Remote2) :
  outcome_of provider1 env event w1 = outcome_of provider2 env event w2 ->
  fst (handler provider1 env event w1) = fst (handler provider2 env event w2).
Proof. intros H. rewrite !handler_response. now rewrite H. Qed.

Lemma response_ignores_history_witness :
  outcome_of (constant_provider
                (answer_with "{'content':[{'type':'text','text':'Hi'}]}"))
             no_env (event_with "{'prompt':'Say hi'}") empty_world
  = outcome_of (constant_provider
                  (answer_with "{'id':'m2','content':[{'type':'text','text':'H'},{'type':'text','text':'i'}]}"))
               no_env (event_with "{'prompt':'Say hi'}")
               {| remote := tt;
                  sent := [request_of no_env (event_with "{'prompt':'Earlier'}")];
                  console := [[VString (js "Bedrock invoke failed:"); throttling]] |}
  /\ fst (handler (constant_provider
                     (answer_with "{'content':[{'type':'text','text':'Hi'}]}"))
                  no_env (event_with "{'prompt':'Say hi'}") empty_world)
     = fst (handler (constant_provider
                       (answer_with "{'id':'m2','content':[{'type':'text','text':'H'},{'type':'text','text':'i'}]}"))
                    no_env (event_with "{'prompt':'Say hi'}")
                    {| remote := tt;
                       sent := [request_of no_env (event_with "{'prompt':'Earlier'}")];
                       console := [[VString (js "Bedrock invoke failed:"); throttling]] |}).
Proof.
  assert (H : outcome_of (constant_provider
                (answer_with "{'content':[{'type':'text','text':'Hi'}]}"))
             no_env (event_with "{'prompt':'Say hi'}") empty_world
  = outcome_of (constant_provider
                  (answer_with "{'id':'m2','content':[{'type':'text','text':'H'},{'type':'text','text':'i'}]}"))
               no_env (event_with "{'prompt':'Say hi'}")
               {| remote := tt;
                  sent := [request_of no_env (event_with "{'prompt':'Earlier'}")];
                  console := [[VString (js "Bedrock invoke failed:"); throttling]] |})
    by (vm_compute; reflexivity).
  split; [exact H|].
  exact (response_ignores_history _ _ _ _ _ _ H).
Defined.

(** X6 (chat.ts, lines 134-142): the 500 response is made of the error
    alone.  Two failed invocations that caught the same error return the
    same response, whatever their environments, events and providers. *)
Theorem failure_response_ignores_request {Remote1 Remote2}
        (provider1 : Remote1 -> BedrockRuntimeClient.t -> InvokeModelCommand.t ->
                     completion InvokeModelCommandOutput.t * Remote1)
        (provider2 : Remote2 -> BedrockRuntimeClient.t -> InvokeModelCommand.t ->
                     completion InvokeModelCommandOutput.t * Remote2)
        (env1 env2 : ProcessEnv.t) (event1 event2 : ApiGatewayEvent.t)
        (w1 : World Remote1) (w2 : World Remote2) (err : value) :
  raises provider1 env1 event1 w1 err ->
  raises provider2 env2 event2 w2 err ->
  fst (handler provider1 env1 event1 w1) = fst (handler provider2 env2 event2 w2).
Proof.
  intros H1 H2.
  rewrite (handler_failure provider1 env1 event1 w1 err H1).
  rewrite (handler_failure provider2 env2 event2 w2 err H2).
  reflexivity.
Qed.

Lemma failure_response_ignores_request_witness :
  (raises (constant_provider (Throw throttling)) no_env
          (event_with "{'prompt':'Say hi'}") empty_world throttling
   /\ raises (constant_provider (Throw throttling))
             (chat_lambda_environment (js "eu-west-1"))
             (event_with "{'prompt':'Another prompt'}") empty_world throttling)
  /\ fst (handler (constant_provider (Throw throttling)) no_env
                  (event_with "{'prompt':'Say hi'}") empty_world)
     = fst (handler (constant_provider (Throw throttling))
                    (chat_lambda_environment (js "eu-west-1"))
                    (event_with "{'prompt':'Another prompt'}") empty_world).
Proof.
  assert (H1 : raises (constant_provider (Throw throttling)) no_env
                      (event_with "{'prompt':'Say hi'}") empty_world throttling)
    by reflexivity.
  assert (H2 : raises (constant_provider (Throw throttling))
                      (chat_lambda_environment (js "eu-west-1"))
                      (event_with "{'prompt':'Another prompt'}") empty_world
                      throttling)
    by reflexivity.
  split; [split; [exact H1|exact H2]|].
  exact (failure_response_ignores_request _ _ _ _ _ _ _ _ _ H1 H2).
Defined.

(** ** The extractor *)

(** X7 (chat.ts, lines 104-112): the text depends on the [content] of the
    decoded answer and on nothing else in it. *)
Theorem extract_text_reads_content_only (raw1 raw2 : value) :
  GetOptional raw1 (js "content") = GetOptional raw2 (js "content") ->
  extract_text raw1 = extract_text raw2.
Proof.
  intros H.
  destruct (GetOptional raw1 (js "content")) as [| | | | |blocks|] eqn:H1;
    try (rewrite (extract_text_not_array raw1), (extract_text_not_array raw2);
         [reflexivity|now rewrite <- H|now rewrite H1]).
  rewrite (extract_text_array raw1 blocks H1).
  now rewrite (extract_text_array raw2 blocks (eq_sym H)).
Qed.

Lemma extract_text_reads_content_only_witness :
  GetOptional (VObject [(js "content", VArray mixed_blocks)]) (js "content")
  = GetOptional (VObject [(js "id", VString (js "msg_1"));
                          (js "content", VArray mixed_blocks);
                          (js "stop_reason", VString (js "end_turn"))])
                (js "content")
  /\ extract_text (VObject [(js "content", VArray mixed_blocks)])
     = extract_text (VObject [(js "id", VString (js "msg_1"));
                              (js "content", VArray mixed_blocks);
                              (js "stop_reason", VString (js "end_turn"))]).
Proof.
  split; [reflexivity|].
  exact (extract_text_reads_content_only
           (VObject [(js "content", VArray mixed_blocks)])
           (VObject [(js "id", VString (js "msg_1"));
                     (js "content", VArray mixed_blocks);
                     (js "stop_reason", VString (js "end_turn"))])
           eq_refl).
Defined.

Lemma spec_concat_text_app (a b : list value) :
  spec_concat_text (a ++ b) = spec_concat_text a ++ spec_concat_text b.
Proof.
  induction a as [|x a IH]; simpl; [reflexivity|].
  destruct (spec_block_text x); rewrite IH; [now rewrite app_assoc|reflexivity].
Qed.

(** X8 (chat.ts, lines 104-112): the text of a content array made of two
    parts is the text of the first followed by the text of the second. *)
Theorem extract_text_of_append (raw raw1 raw2 : value) (a b : list value) :
  GetOptional raw1 (js "content") = VArray a ->
  GetOptional raw2 (js "content") = VArray b ->
  GetOptional raw (js "content") = VArray (a ++ b) ->
  exists t1 t2,
    extract_text raw1 = Normal t1
    /\ extract_text raw2 = Normal t2
    /\ extract_text raw = Normal (t1 ++ t2).
Proof.
  intros H1 H2 H.
  exists (spec_concat_text a), (spec_concat_text b).
  rewrite (extract_text_array raw1 a H1), (extract_text_array raw2 b H2).
  rewrite (extract_text_array raw (a ++ b) H), spec_concat_text_app.
  repeat split.
Qed.

Lemma extract_text_of_append_witness :
  (GetOptional (content_only mixed_blocks) (js "content") = VArray mixed_blocks
   /\ GetOptional (content_only mixed_blocks) (js "content") = VArray mixed_blocks
   /\ GetOptional (content_only (mixed_blocks ++ mixed_blocks)) (js "content")
      = VArray (mixed_blocks ++ mixed_blocks))
  /\ extract_text (content_only (mixed_blocks ++ mixed_blocks)) = Normal (js "ABAB").
Proof.
  split; [repeat split|].
  destruct (extract_text_of_append
              (content_only (mixed_blocks ++ mixed_blocks))
              (content_only mixed_blocks) (content_only mixed_blocks)
              mixed_blocks mixed_blocks eq_refl eq_refl eq_refl)
    as (t1 & t2 & E1 & E2 & E).
  rewrite E. injection E1 as <-. injection E2 as <-. reflexivity.
Defined.

(** X9 (chat.ts, lines 106-109): a block the filter rejects, wherever it
    stands in the content, leaves the text as it is without it. *)
Theorem rejected_block_is_invisible (raw raw' : value) (a c : list value)
        (block : value) :
  is_text_block block = false ->
  GetOptional raw (js "content") = VArray (a ++ block :: c) ->
  GetOptional raw' (js "content") = VArray (a ++ c) ->
  extract_text raw = extract_text raw'.
Proof.
  intros Hblock H H'.
  rewrite (extract_text_array raw _ H), (extract_text_array raw' _ H').
  rewrite !spec_concat_text_app. simpl.
  pose proof (is_text_block_spec block) as Hspec.
  destruct (spec_block_text block) as [tx|]; [|reflexivity].
  destruct Hspec as [Hkeep _]. congruence.
Qed.

Lemma rejected_block_is_invisible_witness :
  (is_text_block null_text_block = false
   /\ GetOptional (content_only (mixed_blocks ++ null_text_block :: mixed_blocks))
                  (js "content")
      = VArray (mixed_blocks ++ null_text_block :: mixed_blocks)
   /\ GetOptional (content_only (mixed_blocks ++ mixed_blocks)) (js "content")
      = VArray (mixed_blocks ++ mixed_blocks))
  /\ extract_text (content_only (mixed_blocks ++ null_text_block :: mixed_blocks))
     = extract_text (content_only (mixed_blocks ++ mixed_blocks)).
Proof.
  split; [repeat split|].
  exact (rejected_block_is_invisible
           (content_only (mixed_blocks ++ null_text_block :: mixed_blocks))
           (content_only (mixed_blocks ++ mixed_blocks))
           mixed_blocks mixed_blocks null_text_block eq_refl eq_refl eq_refl).
Defined.

(** ** The normalizer and the request *)

(** The prompt of a body that parses, read off the parsed value. *)
Lemma normalize_prompt_parsed (text : jsstring) (parsed : value) :
  JSON.parse text = Normal parsed ->
  normalize_prompt (event_of text)
  = match GetOptional parsed (js "prompt") with
    | VString s => s
    | _ => js "Hello from Bedrock!"
    end.
Proof.
  intros Hparse. unfold normalize_prompt, event_of. cbn [ApiGatewayEvent.body].
  destruct text as [|c text].
  - destruct parse_empty as [e He]. congruence.
  - cbn [string_truthy]. rewrite Hparse. cbn [cbind].
    destruct parsed as [| | | | | |props]; try reflexivity.
    cbn [Get GetOptional cbind]. now destruct (lookup (js "prompt") props).
Qed.

(** X10 (chat.ts, lines 38-47): of a body that parses, only the [prompt]
    property is read; two bodies with the same [prompt] give the same
    prompt, whatever else they hold. *)
Theorem normalizer_reads_prompt_only (text1 text2 : jsstring)
        (parsed1 parsed2 : value) :
  JSON.parse text1 = Normal parsed1 ->
  JSON.parse text2 = Normal parsed2 ->
  GetOptional parsed1 (js "prompt") = GetOptional parsed2 (js "prompt") ->
  normalize_prompt (event_of text1) = normalize_prompt (event_of text2).
Proof.
  intros H1 H2 H.
  rewrite (normalize_prompt_parsed text1 parsed1 H1).
  rewrite (normalize_prompt_parsed text2 parsed2 H2).
  now rewrite H.
Qed.

Lemma normalizer_reads_prompt_only_witness :
  (JSON.parse (jq "{'prompt':'Say hi'}")
   = Normal (VObject [(js "prompt", VString (js "Say hi"))])
   /\ JSON.parse (jq "{'max_tokens':5,'prompt':'Say hi','role':'system'}")
      = Normal (VObject [(js "max_tokens", VNumber (Num false 5 0));
                         (js "prompt", VString (js "Say hi"));
                         (js "role", VString (js "system"))])
   /\ GetOptional (VObject [(js "prompt", VString (js "Say hi"))]) (js "prompt")
      = GetOptional (VObject [(js "max_tokens", VNumber (Num false 5 0));
                              (js "prompt", VString (js "Say hi"));
                              (js "role", VString (js "system"))])
                    (js "prompt"))
  /\ normalize_prompt (event_of (jq "{'prompt':'Say hi'}"))
     = normalize_prompt
         (event_of (jq "{'max_tokens':5,'prompt':'Say hi','role':'system'}")).
Proof.
  split; [repeat split|].
  exact (normalizer_reads_prompt_only
           (jq "{'prompt':'Say hi'}")
           (jq "{'max_tokens':5,'prompt':'Say hi','role':'system'}")
           (VObject [(js "prompt", VString (js "Say hi"))])
           (VObject [(js "max_tokens", VNumber (Num false 5 0));
                     (js "prompt", VString (js "Say hi"));
                     (js "role", VString (js "system"))])
           eq_refl eq_refl eq_refl).
Defined.

(** X11 (chat.ts, lines 38-47 and 63-78): a caller that sends
    [JSON.stringify({prompt: s})] has [s] taken as the prompt and put in
    the text block of the payload, for every string [s]: quotation marks,
    control characters and lone surrogates included. *)
Theorem stringified_prompt_round_trip {Remote}
        (provider : Remote -> BedrockRuntimeClient.t -> InvokeModelCommand.t ->
                    completion InvokeModelCommandOutput.t * Remote)
        (env : ProcessEnv.t) (w : World Remote) (s : jsstring) :
  normalize_prompt (event_of (JSON.stringify_object [(js "prompt", VString s)])) = s
  /\ exists client command payload,
       sent (snd (handler provider env
                          (event_of (JSON.stringify_object [(js "prompt", VString s)]))
                          w))
       = sent w ++ [(client, command)]
       /\ JSON.parse (InvokeModelCommand.body command) = Normal payload
       /\ payload_text payload = VString s.
Proof.
  assert (Hs : normalize_prompt
                 (event_of (JSON.stringify_object [(js "prompt", VString s)])) = s).
  { rewrite (normalize_prompt_parsed _ (VObject [(js "prompt", VString s)])).
    - reflexivity.
    - rewrite stringify_object_serialized. apply parse_stringify. plain_value. }
  split; [exact Hs|].
  exists (fst (request_of env (event_of (JSON.stringify_object
                                            [(js "prompt", VString s)])))),
    (snd (request_of env (event_of (JSON.stringify_object
                                      [(js "prompt", VString s)])))),
    (VObject (request_properties s)).
  split; [|split].
  - rewrite handler_sent. reflexivity.
  - cbn [request_of snd InvokeModelCommand.body]. rewrite Hs.
    apply request_body_parses.
  - reflexivity.
Qed.

(** X12 (chat.ts, lines 63-78): the request body tells prompts apart; two
    different prompts never give the same body. *)
Theorem request_body_injective (prompt1 prompt2 : jsstring) :
  prompt1 <> prompt2 -> request_body prompt1 <> request_body prompt2.
Proof.
  intros Hne Hbody. apply Hne.
  pose proof (request_body_parses prompt1) as H1.
  rewrite Hbody, request_body_parses in H1.
  unfold request_properties in H1. now inversion H1.
Qed.

Lemma request_body_injective_witness :
  jq "a'}],'x':[{'y':'" <> js "a"
  /\ request_body (jq "a'}],'x':[{'y':'") <> request_body (js "a").
Proof.
  assert (H : jq "a'}],'x':[{'y':'" <> js "a") by discriminate.
  split; [exact H|].
  exact (request_body_injective _ _ H).
Defined.

(** X13 (chat.ts, lines 53-126): a 200 response echoes what the call was
    made with: its [region] is the client's, its [modelId] the command's,
    and its [prompt] the text block of the payload that was sent. *)
Theorem success_echoes_the_call {Remote}
        (provider : Remote -> BedrockRuntimeClient.t -> InvokeModelCommand.t ->
                    completion InvokeModelCommandOutput.t * Remote)
        (env : ProcessEnv.t) (event : ApiGatewayEvent.t) (w : World Remote)
        (response : HttpResponse.t) (w' : World Remote) :
  handler provider env event w = (Normal response, w') ->
  HttpResponse.statusCode response = 200 ->
  exists client command echoed payload,
    sent w' = sent w ++ [(client, command)]
    /\ JSON.parse (HttpResponse.body response) = Normal echoed
    /\ JSON.parse (InvokeModelCommand.body command) = Normal payload
    /\ GetOptional echoed (js "region")
       = VString (BedrockRuntimeClient.region client)
    /\ GetOptional echoed (js "modelId")
       = VString (InvokeModelCommand.modelId command)
    /\ GetOptional echoed (js "prompt") = payload_text payload.
Proof.
  intros Hrun Hstatus.
  destruct (handler_returns provider env event w) as [[text H]|(err & _ & H)];
    rewrite H in Hrun; inversion Hrun; subst; clear Hrun.
  - exists (fst (request_of env event)), (snd (request_of env event)).
    do 2 eexists. split; [reflexivity|]. split; [apply success_body_parses|].
    split; [apply request_body_parses|]. repeat split.
  - discriminate Hstatus.
Qed.

Lemma success_echoes_the_call_witness :
  (handler (constant_provider
              (answer_with "{'content':[{'type':'text','text':'Hi there!'}]}"))
           (chat_lambda_environment (js "eu-west-1"))
           (event_with "{'prompt':'Say hi'}") empty_world
   = (Normal (success_response (js "eu-west-1")
                               (js "anthropic.claude-3-sonnet-20240229-v1:0")
                               (js "Say hi") (js "Hi there!")),
      after_send (constant_provider
                    (answer_with "{'content':[{'type':'text','text':'Hi there!'}]}"))
                 (chat_lambda_environment (js "eu-west-1"))
                 (event_with "{'prompt':'Say hi'}") empty_world)
   /\ HttpResponse.statusCode
        (success_response (js "eu-west-1")
                          (js "anthropic.claude-3-sonnet-20240229-v1:0")
                          (js "Say hi") (js "Hi there!")) = 200)
  /\ exists echoed,
       JSON.parse (HttpResponse.body
                     (success_response (js "eu-west-1")
                        (js "anthropic.claude-3-sonnet-20240229-v1:0")
                        (js "Say hi") (js "Hi there!")))
       = Normal echoed
       /\ GetOptional echoed (js "region") = VString (js "eu-west-1").
Proof.
  assert (Hrun : handler (constant_provider
              (answer_with "{'content':[{'type':'text','text':'Hi there!'}]}"))
           (chat_lambda_environment (js "eu-west-1"))
           (event_with "{'prompt':'Say hi'}") empty_world
   = (Normal (success_response (js "eu-west-1")
                               (js "anthropic.claude-3-sonnet-20240229-v1:0")
                               (js "Say hi") (js "Hi there!")),
      after_send (constant_provider
                    (answer_with "{'content':[{'type':'text','text':'Hi there!'}]}"))
                 (chat_lambda_environment (js "eu-west-1"))
                 (event_with "{'prompt':'Say hi'}") empty_world))
    by (vm_compute; reflexivity).
  split; [split; [exact Hrun|reflexivity]|].
  destruct (success_echoes_the_call _ _ _ _ _ _ Hrun eq_refl)
    as (client & command & echoed & payload & Hsent & Hecho & _ & Hregion & _).
  exists echoed. split; [exact Hecho|].
  rewrite Hregion. f_equal.
  vm_compute in Hsent. now injection Hsent as <- _.
Defined.

(** X14 (chat.ts, lines 85-92 and 127): the provider is called once per
    invocation and never again, also when the call fails: the provider is
    one step further, and one request has been recorded. *)
Theorem one_call_no_retry {Remote}
        (provider : Remote -> BedrockRuntimeClient.t -> InvokeModelCommand.t ->
                    completion InvokeModelCommandOutput.t * Remote)
        (env : ProcessEnv.t) (event : ApiGatewayEvent.t) (w : World Remote) :
  exists client command,
    sent (snd (handler provider env event w)) = sent w ++ [(client, command)]
    /\ remote (snd (handler provider env event w))
       = snd (provider (remote w) client command).
Proof.
  exists (fst (request_of env event)), (snd (request_of env event)).
  destruct (handler_returns provider env event w) as [[text H]|(err & _ & H)];
    rewrite H; split; reflexivity.
Qed.

(** ** Decoding the answer *)

Lemma utf8_decode_ascii (codes : list N) :
  Forall (fun c => c < 128) codes ->
  TextDecoder.utf8_decode codes 0 0 128 191 = codes.
Proof.
  induction 1 as [|c codes Hc _ IH]; [reflexivity|].
  change (TextDecoder.utf8_decode (c :: codes) 0 0 128 191)
    with (match TextDecoder.classify c with
          | TextDecoder.LeadAscii => c :: TextDecoder.utf8_decode codes 0 0 128 191
          | TextDecoder.LeadMulti cp n lo hi => TextDecoder.utf8_decode codes cp n lo hi
          | TextDecoder.LeadInvalid =>
              65533 :: TextDecoder.utf8_decode codes 0 0 128 191
          end).
  unfold TextDecoder.classify.
  destruct (N.leb_spec c 127); [|lia]. now rewrite IH.
Qed.

Lemma utf16_encode_small (codes : list N) :
  Forall (fun c => c < 128) codes ->
  flat_map TextDecoder.utf16_encode codes = codes.
Proof.
  induction 1 as [|c codes Hc _ IH]; [reflexivity|].
  change (flat_map TextDecoder.utf16_encode (c :: codes))
    with (TextDecoder.utf16_encode c ++ flat_map TextDecoder.utf16_encode codes).
  rewrite IH. unfold TextDecoder.utf16_encode.
  destruct (N.ltb_spec c 65536); [reflexivity|lia].
Qed.

Lemma decode_ascii (bytes : list byte) :
  Forall (fun b => Byte.to_N b < 128) bytes ->
  TextDecoder.decode bytes = map Byte.to_N bytes.
Proof.
  intros H.
  assert (Hcodes : Forall (fun c => c < 128) (map Byte.to_N bytes)).
  { induction H; constructor; auto. }
  unfold TextDecoder.decode. rewrite (utf8_decode_ascii _ Hcodes).
  assert (Hbom : TextDecoder.strip_bom (map Byte.to_N bytes) = map Byte.to_N bytes).
  { destruct Hcodes as [|c codes Hc _]; [reflexivity|].
    unfold TextDecoder.strip_bom. destruct (N.eqb_spec c 65279); [lia|reflexivity]. }
  rewrite Hbom. now apply utf16_encode_small.
Qed.

(** X15 (chat.ts, lines 98-112): an answer made of 7-bit bytes is read as
    the characters with those codes: its text is what [JSON.parse] and the
    extractor make of them. *)
Theorem seven_bit_answer_is_read_as_written (resp : InvokeModelCommandOutput.t) :
  Forall (fun b => Byte.to_N b < 128) (InvokeModelCommandOutput.body resp) ->
  response_text resp
  = cbind (JSON.parse (map Byte.to_N (InvokeModelCommandOutput.body resp)))
          extract_text.
Proof. intros H. unfold response_text. now rewrite (decode_ascii _ H). Qed.

Lemma seven_bit_answer_is_read_as_written_witness :
  Forall (fun b => Byte.to_N b < 128) (bytes_of "{'content':[]}")
  /\ response_text {| InvokeModelCommandOutput.body := bytes_of "{'content':[]}" |}
     = cbind (JSON.parse (jq "{'content':[]}")) extract_text.
Proof.
  assert (H : Forall (fun b => Byte.to_N b < 128) (bytes_of "{'content':[]}"))
    by (repeat constructor).
  split; [exact H|].
  exact (seven_bit_answer_is_read_as_written
           {| InvokeModelCommandOutput.body := bytes_of "{'content':[]}" |} H).
Defined.
